(** * temp2fa: the TOTP account store of [temp2fa.py]

    A shallow embedding of the store and codec code of [src/temp2fa.py]
    ([TOTPManager], the export/import and rename handlers of
    [TOTPManagerGUI], and the [accept] handlers of [RenameDialog] and
    [ManualEntryDialog]) together with the properties the specification
    states about them.

    Modelling conventions.
    - A Python [str] is a [string]; characters are ASCII.  [upper] acts on
      the letters a-z and [strip] removes the ASCII characters for which
      [str.isspace] holds.
    - [time.time()] returns a float; every finite float is a rational, so a
      clock reading is a [Q] and [int(...)] is truncation toward zero.  A
      clock reading counts the seconds since the epoch and is not negative.
    - A cell read back from the accounts tree is a [tree_value]: a number
      where [ttk] has turned the text into an [int], a text otherwise.
    - A parsed JSON document is a [json]; a Python [dict] with string keys is
      a [gmap string json].
    - An exception caught by the function's own [try]/[except] is the
      failure value the [except] branch returns.
    - The libraries the code calls but that are not part of the repository
      ([pyotp], the percent-decoding of [urllib.parse.unquote]) are section
      variables. *)

From Stdlib Require Import ZArith QArith Qround Ascii String.
From stdpp Require Import gmap strings list fin_maps pretty.

Set Warnings "-register-all".

Local Open Scope string_scope.

(** ** Python string primitives *)

(** [c in s] for a one-character [c]. *)
Fixpoint contains (c : ascii) (s : string) : bool :=
  match s with
  | EmptyString => false
  | String a s' => if Ascii.eqb a c then true else contains c s'
  end.

(** [s.replace(c, '')] for a one-character [c]. *)
Fixpoint remove_char (c : ascii) (s : string) : string :=
  match s with
  | EmptyString => EmptyString
  | String a s' =>
      if Ascii.eqb a c then remove_char c s' else String a (remove_char c s')
  end.

(** [s.replace(c, d)] for one-character [c] and [d]. *)
Fixpoint replace_char (c d : ascii) (s : string) : string :=
  match s with
  | EmptyString => EmptyString
  | String a s' => String (if Ascii.eqb a c then d else a) (replace_char c d s')
  end.

Definition upper_ascii (a : ascii) : ascii :=
  let n := nat_of_ascii a in
  if (97 <=? n)%nat && (n <=? 122)%nat then ascii_of_nat (n - 32) else a.

(** [s.upper()]. *)
Fixpoint upper (s : string) : string :=
  match s with
  | EmptyString => EmptyString
  | String a s' => String (upper_ascii a) (upper s')
  end.

(** [c.isspace()] on ASCII: TAB, LF, VT, FF, CR, FS, GS, RS, US and space. *)
Definition is_space (a : ascii) : bool :=
  let n := nat_of_ascii a in
  ((9 <=? n)%nat && (n <=? 13)%nat) || ((28 <=? n)%nat && (n <=? 32)%nat).

Fixpoint lstrip (s : string) : string :=
  match s with
  | EmptyString => EmptyString
  | String a s' => if is_space a then lstrip s' else s
  end.

Fixpoint rstrip (s : string) : string :=
  match s with
  | EmptyString => EmptyString
  | String a s' =>
      match rstrip s' with
      | EmptyString => if is_space a then EmptyString else String a EmptyString
      | r => String a r
      end
  end.

(** [s.strip()]. *)
Definition strip (s : string) : string := rstrip (lstrip s).

(** [s.lstrip(c)] for a one-character [c]. *)
Fixpoint lstrip_char (c : ascii) (s : string) : string :=
  match s with
  | EmptyString => EmptyString
  | String a s' => if Ascii.eqb a c then lstrip_char c s' else s
  end.

(** [s.split(c, 1)] when [c in s]: the text before the first [c] and the
    text after it.  Without a [c] the whole string is the first part. *)
Fixpoint split_first (c : ascii) (s : string) : string * string :=
  match s with
  | EmptyString => (EmptyString, EmptyString)
  | String a s' =>
      if Ascii.eqb a c then (EmptyString, s')
      else let (l, r) := split_first c s' in (String a l, r)
  end.

(** [s.split(c)]: all the fields between occurrences of [c]. *)
Fixpoint split_all (c : ascii) (s : string) : list string :=
  match s with
  | EmptyString => [EmptyString]
  | String a s' =>
      if Ascii.eqb a c then EmptyString :: split_all c s'
      else match split_all c s' with
           | [] => [String a EmptyString]
           | f :: fs => String a f :: fs
           end
  end.

(** [s.startswith(p)]. *)
Definition startswith (p s : string) : bool := String.prefix p s.

(** [not s] for a string: the empty string is falsy. *)
Definition is_empty (s : string) : bool :=
  match s with EmptyString => true | _ => false end.

(** ** JSON values *)

(** What [json.load] returns and [json.dump] accepts.  An object is a Python
    [dict], that is a finite map from strings. *)
Inductive json : Type :=
  | JNull
  | JBool (b : bool)
  | JNumber (q : Q)
  | JString (s : string)
  | JArray (l : list json)
  | JObject (o : gmap string json).

(** ** Constants *)

Definition TOTP_PERIOD : Z := 30.
Definition MIN_SECRET_LENGTH : nat := 16.

(** ** SecretCodec *)

(** [secret.replace(' ', '').replace('-', '').upper()], the cleaning step of
    [add_account_manual]. *)
Definition clean_secret (secret : string) : string :=
  upper (remove_char "-" (remove_char " " secret)).

(** [int(x)] on a float: truncation toward zero. *)
Definition int_of_float (x : Q) : Z := Z.quot (Qnum x) (Z.pos (Qden x)).

(** [TOTPManager.get_time_remaining], with the clock reading [time.time()]
    as an argument.  Python's [%] with a positive modulus is [Z.modulo]. *)
Definition get_time_remaining (time_now : Q) : Z :=
  TOTP_PERIOD - (int_of_float time_now) mod TOTP_PERIOD.

(** ** QRPayloadParser *)

(** The two fields of [urllib.parse.urlparse]'s result that the code reads. *)
Record ParseResult : Type := { path : string; query : string }.

(** The candidate account [extract_secret_from_image] returns: the dict with
    the keys ['secret'], ['account'] and ['issuer']. *)
Record qr_candidate : Type :=
  { qr_secret : string; qr_account : string; qr_issuer : string }.

Fixpoint string_drop (n : nat) (s : string) : string :=
  match n, s with
  | O, _ => s
  | S n', String _ s' => string_drop n' s'
  | S _, EmptyString => EmptyString
  end.

(** [urllib.parse.urlparse] on a string that starts with
    [otpauth://totp/], the only strings the code passes to it.  CPython
    removes TAB, CR and LF from the URL, takes [otpauth] as the scheme and
    [totp] as the network location, cuts the fragment at the first [#] and
    then the query at the first [?]; what is left is the path. *)
Definition urlparse (url : string) : ParseResult :=
  let url := remove_char "010" (remove_char "013" (remove_char "009" url)) in
  let rest := string_drop (String.length "otpauth://totp") url in
  let (rest, _) := split_first "#" rest in
  let (p, q) := split_first "?" rest in
  {| path := p; query := q |}.

Section QRPayloadParser.

(** [urllib.parse.unquote] on a string that contains a [%]: the decoding
    of percent escapes as UTF-8 is the library's. *)
Variable unquote_escapes : string -> string.

(** [urllib.parse.unquote]: a string without [%] is returned as it is. *)
Definition unquote (s : string) : string :=
  if contains "%" s then unquote_escapes s else s.

(** One [name=value] field of [urllib.parse.parse_qsl] with its default
    arguments: empty fields, fields without [=] and fields with a blank
    value are dropped; [+] is a space; both sides are unquoted. *)
Definition parse_qsl_field (name_value : string) : option (string * string) :=
  if is_empty name_value then None
  else if contains "=" name_value then
    let (n, v) := split_first "=" name_value in
    if is_empty v then None
    else Some (unquote (replace_char "+" " " n),
               unquote (replace_char "+" " " v))
  else None.

Definition parse_qsl (qs : string) : list (string * string) :=
  if is_empty qs then [] else omap parse_qsl_field (split_all "&" qs).

(** [urllib.parse.parse_qs]: each name with the list of its values, in
    the order of the query string. *)
Definition parse_qs (qs : string) : gmap string (list string) :=
  foldl (fun m nv => <[nv.1 := (default [] (m !! nv.1) ++ [nv.2])%list]> m)
        ∅ (parse_qsl qs).

(** [params.get(name, [d])[0]]; [None] stands for the default. *)
Definition param_first (name : string) (params : gmap string (list string))
  : option string :=
  match params !! name with
  | Some (v :: _) => Some v
  | _ => None
  end.

(** [TOTPManager.extract_secret_from_image].  The argument is what
    [QRDecoder.decode_qr] returned for the image. *)
Definition extract_secret_from_image (qr_data : option string)
  : option qr_candidate :=
  match qr_data with
  | None => None
  | Some qr_data =>
      if is_empty qr_data || negb (startswith "otpauth://totp/" qr_data)
      then None
      else
        let parsed_url := urlparse qr_data in
        let params := parse_qs (query parsed_url) in
        let secret := param_first "secret" params in
        let issuer := default "Unknown" (param_first "issuer" params) in
        let account_name := lstrip_char "/" (path parsed_url) in
        let '(issuer, account_name) :=
          if contains ":" account_name then
            let (issuer_from_path, account_name) :=
              split_first ":" account_name in
            (if String.eqb issuer "Unknown" then issuer_from_path else issuer,
             account_name)
          else (issuer, account_name) in
        match secret with
        | None => None
        | Some secret =>
            if is_empty secret then None
            else Some {| qr_secret := secret;
                         qr_account := account_name;
                         qr_issuer := issuer |}
        end
  end.

End QRPayloadParser.

(** ** AccountStore *)

(** The record dict the two add paths store. *)
Definition account_record (secret account issuer : string) (added : Q) : json :=
  JObject (<["secret" := JString secret]>
          (<["account" := JString account]>
          (<["issuer" := JString issuer]>
          (<["added" := JNumber added]> ∅)))).

(** [f"{base}_{counter}"]. *)
Definition suffixed (base : string) (counter : nat) : string :=
  base +:+ "_" +:+ pretty counter.

(** The collision loop shared by the add paths and by rename:
<<
   while <taken name>:
       name = f"{base}_{counter}"
       counter += 1
>>
    [fuel] bounds the number of tests of the loop condition. *)
Fixpoint suffix_loop (fuel : nat) (taken : string -> bool)
    (base name : string) (counter : nat) : option string :=
  match fuel with
  | O => None
  | S fuel' =>
      if taken name
      then suffix_loop fuel' taken base (suffixed base counter) (S counter)
      else Some name
  end.

(** [name in self.secrets]. *)
Definition key_in (secrets : gmap string json) (name : string) : bool :=
  bool_decide (is_Some (secrets !! name)).

(** The loop of the add paths, started at [name = base_name],
    [counter = 1].  A store of [n] records cannot hold all of
    [base_1 .. base_(n+1)], so [n + 2] tests are enough
    (see [unique_name_total]). *)
Definition unique_name (secrets : gmap string json) (base_name : string)
  : option string :=
  suffix_loop (S (S (size secrets))) (key_in secrets) base_name base_name 1.

(** The loop of [rename_account]:
    [while new_key in secrets and new_key != account_key]. *)
Definition rename_key (secrets : gmap string json) (account_key : string)
    (base_name : string) : option string :=
  suffix_loop (S (S (size secrets)))
    (fun name => key_in secrets name && negb (String.eqb name account_key))
    base_name base_name 1.

(** What is in the storage file when [load_secrets] runs. *)
Inductive storage_state : Type :=
  | FileMissing                 (* [os.path.exists] is false *)
  | FileUnreadable              (* [open] or [json.load] raises *)
  | FileContent (data : json).  (* [json.load] returned [data] *)

(** [self.secrets] after [TOTPManager.__init__]. *)
Definition TOTPManager_init : json := JObject ∅.

(** [TOTPManager.load_secrets]: the returned flag and [self.secrets]
    afterwards.  [secrets] is [self.secrets] before the call. *)
Definition load_secrets (secrets : json) (file : storage_state) : bool * json :=
  match file with
  | FileMissing => (true, JObject ∅)
  | FileUnreadable => (false, secrets)
  | FileContent data =>
      match data with
      | JObject o =>
          if bool_decide (is_Some (o !! "salt"))
             && bool_decide (is_Some (o !! "data"))
          then (true, JObject ∅)
          else (true, data)
      | _ => (true, data)
      end
  end.

(** Start-up as [TOTPManagerGUI.__init__] does it: a fresh manager, then
    [load_secrets]. *)
Definition startup_load (file : storage_state) : bool * json :=
  load_secrets TOTPManager_init file.

Section TOTPManager.

(** [pyotp.TOTP(secret).now()] at a clock reading: [None] when the
    library raises (the secret is not base32), otherwise the code. *)
Variable totp_now : string -> Q -> option string.

(** [TOTPManager.add_account_from_qr]: the returned flag and the store
    afterwards.  [None] only if the collision loop ran out of fuel, which
    [add_account_from_qr_total] excludes. *)
Definition add_account_from_qr (secrets : gmap string json)
    (qr_data : qr_candidate) (time_now : Q)
  : option (bool * gmap string json) :=
  match totp_now (qr_secret qr_data) time_now with
  | None => Some (false, secrets)
  | Some _ =>
      let base_name := qr_issuer qr_data +:+ "_" +:+ qr_account qr_data in
      name ← unique_name secrets base_name;
      Some (true,
            <[name := account_record (qr_secret qr_data) (qr_account qr_data)
                        (qr_issuer qr_data) time_now]> secrets)
  end.

(** [TOTPManager.add_account_manual]. *)
Definition add_account_manual (secrets : gmap string json)
    (name secret issuer : string) (time_now : Q)
  : option (bool * gmap string json) :=
  let clean := clean_secret secret in
  match totp_now clean time_now with
  | None => Some (false, secrets)
  | Some _ =>
      key ← unique_name secrets (issuer +:+ "_" +:+ name);
      Some (true, <[key := account_record clean name issuer time_now]> secrets)
  end.

End TOTPManager.

(** ** ImportExport *)

(** [TOTPManagerGUI.export_accounts] once a file has been chosen: the
    document handed to [json.dump], or [None] when the handler returns at
    its first test ("No accounts to export").  Writing the document and
    reading it back with [json.load] gives the same value. *)
Definition export_accounts (secrets : gmap string json) (time_now : Q)
  : option json :=
  if Nat.eqb (size secrets) 0 then None
  else Some (JObject (<["version" := JString "1.0"]>
                     (<["accounts" := JObject secrets]>
                     (<["exported_at" := JNumber time_now]> ∅)))).

(** The answer to [messagebox.askyesnocancel]: [True], [False] or [None]. *)
Inductive conflict_answer : Type :=
  | ReplaceConflicts
  | SkipConflicts
  | AbortImport.

Inductive import_outcome : Type :=
  | ImportFailed                      (* an exception: "Failed to import" *)
  | ImportAborted                     (* the handler returned at Cancel *)
  | Imported (count : nat) (secrets : gmap string json)
  | ImportOtherShape.                 (* [accounts] is a string or a list *)

(** [TOTPManagerGUI.import_accounts] once a file has been chosen and
    [json.load] has returned [import_data].  [answer] is what the user
    answers if the conflict dialog is shown.  [import_data['accounts']]
    raises when the document is not an object or has no such key, and
    iterating over [null], a boolean or a number raises; an [accounts]
    member that is a string or a list is not modelled. *)
Definition import_accounts (secrets : gmap string json) (import_data : json)
    (answer : conflict_answer) : import_outcome :=
  match import_data with
  | JObject d =>
      match d !! "accounts" with
      | Some (JObject imported_accounts) =>
          let conflicts :=
            filter (fun name => is_Some (secrets !! name))
                   (map fst (map_to_list imported_accounts)) in
          match conflicts with
          | [] =>
              Imported (size imported_accounts) (imported_accounts ∪ secrets)
          | _ :: _ =>
              match answer with
              | AbortImport => ImportAborted
              | SkipConflicts =>
                  let kept :=
                    filter (fun kv => ¬ is_Some (secrets !! kv.1))
                           imported_accounts in
                  Imported (size kept) (kept ∪ secrets)
              | ReplaceConflicts =>
                  Imported (size imported_accounts)
                           (imported_accounts ∪ secrets)
              end
          end
      | Some (JString _) | Some (JArray _) => ImportOtherShape
      | _ => ImportFailed
      end
  | _ => ImportFailed
  end.

(** ** Rename *)

Inductive rename_dialog_outcome : Type :=
  | RenameMissingService      (* "Please enter a service name" *)
  | RenameMissingAccount      (* "Please enter an account name" *)
  | RenameUnchanged           (* closed, [result] stays [None] *)
  | RenameResult (service account : string).

(** A cell of a tree row as [tree.item(item)['values']] hands it back:
    [ttk] turns a text that reads as an integer into an [int] and leaves
    every other text a [str]. *)
Inductive tree_value : Type :=
  | TreeStr (s : string)
  | TreeInt (n : Z).

(** [s == v] for a [str] [s]: a [str] never equals an [int]. *)
Definition str_eq (s : string) (v : tree_value) : bool :=
  match v with
  | TreeStr c => String.eqb s c
  | TreeInt _ => false
  end.


(** [RenameDialog.accept]: [current_service] and [current_account] are the
    values the dialog was opened with, [service_var] and [account_var] the
    contents of its two entries. *)
Definition RenameDialog_accept (current_service current_account : tree_value)
    (service_var account_var : string) : rename_dialog_outcome :=
  let service := strip service_var in
  let account := strip account_var in
  if is_empty service then RenameMissingService
  else if is_empty account then RenameMissingAccount
  else if str_eq service current_service
          && str_eq account current_account
  then RenameUnchanged
  else RenameResult service account.

Inductive rename_outcome : Type :=
  | RenameNotFound            (* "Account not found" *)
  | RenameRaised              (* the stored value is not a dict *)
  | Renamed (new_key : string) (secrets : gmap string json).

(** The body of [TOTPManagerGUI.rename_account] that runs when the dialog
    has a result: the new key and the store afterwards.  [None] only if the
    collision loop ran out of fuel, which [rename_record_total] excludes. *)
Definition rename_record (secrets : gmap string json) (account_key : string)
    (new_service new_account : string) : option rename_outcome :=
  match secrets !! account_key with
  | None => Some RenameNotFound
  | Some (JObject o) =>
      let account_data :=
        <["account" := JString new_account]>
          (<["issuer" := JString new_service]> o) in
      new_key ← rename_key secrets account_key
                  (new_service +:+ "_" +:+ new_account);
      let secrets' :=
        if String.eqb new_key account_key then secrets
        else delete account_key secrets in
      Some (Renamed new_key (<[new_key := JObject account_data]> secrets'))
  | Some _ => Some RenameRaised
  end.


(** ** Manual entry *)

Inductive manual_dialog_outcome : Type :=
  | ManualMissingAccount      (* "Please enter an account name" *)
  | ManualMissingSecret       (* "Please enter the secret key" *)
  | ManualSecretTooShort      (* "Secret key seems too short. ..." *)
  | ManualResult (issuer account secret : string).

(** [ManualEntryDialog.accept] on the contents of the three entries. *)
Definition ManualEntryDialog_accept (service_var account_var secret_var : string)
  : manual_dialog_outcome :=
  let service :=
    if is_empty (strip service_var) then "Manual" else strip service_var in
  let account_name := strip account_var in
  let secret := strip secret_var in
  if is_empty account_name then ManualMissingAccount
  else if is_empty secret then ManualMissingSecret
  else if (String.length (remove_char "-" (remove_char " " secret))
           <? MIN_SECRET_LENGTH)%nat
  then ManualSecretTooShort
  else ManualResult service account_name secret.

Inductive manual_entry_outcome : Type :=
  | EntryRejected (why : manual_dialog_outcome)   (* the dialog's message *)
  | EntryInvalidSecret                            (* "Invalid secret data" *)
  | EntryAdded (secrets : gmap string json).

Section ManualEntry.

Variable totp_now : string -> Q -> option string.

(** [TOTPManagerGUI.show_manual_entry] with its dialog: the manual-add entry
    point the user reaches.  [add_account_manual] runs only on a dialog
    result. *)
Definition show_manual_entry (secrets : gmap string json)
    (service_var account_var secret_var : string) (time_now : Q)
  : option manual_entry_outcome :=
  match ManualEntryDialog_accept service_var account_var secret_var with
  | ManualResult issuer account secret =>
      match add_account_manual totp_now secrets account secret issuer time_now with
      | Some (true, secrets') => Some (EntryAdded secrets')
      | Some (false, _) => Some EntryInvalidSecret
      | None => None
      end
  | why => Some (EntryRejected why)
  end.

End ManualEntry.

(** ** Sequences of adds *)

(** One call of an add path, as the UI issues it. *)
Inductive add_request : Type :=
  | AddFromQR (qr_data : qr_candidate) (time_now : Q)
  | AddManual (name secret issuer : string) (time_now : Q).

Section AddSequence.

Variable totp_now : string -> Q -> option string.

Definition add_one (secrets : gmap string json) (request : add_request)
  : option (bool * gmap string json) :=
  match request with
  | AddFromQR qr_data time_now =>
      add_account_from_qr totp_now secrets qr_data time_now
  | AddManual name secret issuer time_now =>
      add_account_manual totp_now secrets name secret issuer time_now
  end.


End AddSequence.

(** ** Instances for the examples *)

Definition is_base32_char (a : ascii) : bool :=
  let n := nat_of_ascii (upper_ascii a) in
  ((65 <=? n)%nat && (n <=? 90)%nat) || ((50 <=? n)%nat && (n <=? 55)%nat).

Fixpoint all_chars (p : ascii -> bool) (s : string) : bool :=
  match s with
  | EmptyString => true
  | String a s' => p a && all_chars p s'
  end.

(** An instance of the [totp_now] variable for the examples: it accepts the
    strings over the base32 alphabet in either case, as [pyotp] decodes its
    secret with case folding; the code it returns is a placeholder. *)
Definition sample_totp (secret : string) (time_now : Q) : option string :=
  if all_chars is_base32_char secret then Some "000000" else None.

(** An instance of the [unquote_escapes] variable for the examples. *)
Definition sample_unquote_escapes (s : string) : string := s.

Definition sample_record : json :=
  account_record "JBSWY3DPEHPK3PXP" "b" "A" 1700000000.

(** A date formatter for the examples: it formats a number and raises on
    every other value, as [datetime.fromtimestamp] does on a string. *)
Definition sample_format_date (added : json) : option string :=
  match added with
  | JNumber _ => Some "11/14/2023"
  | _ => None
  end.

(** ** The rest of [TOTPManager] *)

(** [TOTPManager.remove_account]: the returned flag and the store
    afterwards. *)
Definition remove_account (secrets : gmap string json) (account_key : string)
  : bool * gmap string json :=
  if key_in secrets account_key then (true, delete account_key secrets)
  else (false, secrets).

(** One entry of [list_accounts]: the dict with the keys ['account'],
    ['issuer'] and ['added']. *)
Record account_info : Type :=
  { info_account : json; info_issuer : json; info_added : json }.

(** The entry [list_accounts] builds for one item of the store: the fields
    of a dict record, with their defaults, and the defaults alone for a
    value that is not a dict. *)
Definition account_entry (key : string) (data : json) : account_info :=
  match data with
  | JObject o =>
      {| info_account := default (JString key) (o !! "account");
         info_issuer := default (JString "Unknown") (o !! "issuer");
         info_added := default (JNumber 0) (o !! "added") |}
  | _ =>
      {| info_account := JString key;
         info_issuer := JString "Unknown";
         info_added := JNumber 0 |}
  end.

(** [TOTPManager.list_accounts]. *)
Definition list_accounts (secrets : gmap string json)
  : gmap string account_info :=
  map_imap (fun key data => Some (account_entry key data)) secrets.

(** What [save_secrets] meets when it opens and writes the storage file:
    the write goes through, or [open] or [json.dump] raises and leaves the
    file in some state. *)
Inductive save_io : Type :=
  | WriteSucceeds
  | WriteRaises (file_left : storage_state).

(** [TOTPManager.save_secrets]: the returned flag and the storage file
    afterwards.  The store itself is not assigned. *)
Definition save_secrets (secrets : json) (io : save_io) : bool * storage_state :=
  match io with
  | WriteSucceeds => (true, FileContent secrets)
  | WriteRaises file_left => (false, file_left)
  end.

(** The result of [generate_code]: [None], an exception that the function
    lets through, or the code. *)
Inductive code_result : Type :=
  | CodeNone
  | CodeRaised
  | Code (code : string).

Section GenerateCode.

Variable totp_now : string -> Q -> option string.

(** [TOTPManager.generate_code].  [data['secret']] raises on a dict without
    that key, and [pyotp] raises on a secret that is not a string or not
    base32; nothing in the function catches either. *)
Definition generate_code (secrets : gmap string json) (account_key : string)
    (time_now : Q) : code_result :=
  match secrets !! account_key with
  | None => CodeNone
  | Some data =>
      let secret :=
        match data with
        | JObject o => o !! "secret"
        | _ => Some data
        end in
      match secret with
      | Some (JString secret) =>
          match totp_now secret time_now with
          | Some code => Code code
          | None => CodeRaised
          end
      | _ => CodeRaised
      end
  end.

(** The truth value Python gives a JSON value. *)
Definition json_truthy (v : json) : bool :=
  match v with
  | JNull => false
  | JBool b => b
  | JNumber q => negb (Qeq_bool q 0)
  | JString s => negb (is_empty s)
  | JArray l => match l with [] => false | _ => true end
  | JObject o => negb (Nat.eqb (size o) 0)
  end.

(** [datetime.fromtimestamp(added).strftime("%m/%d/%Y")]: [None] when it
    raises. *)
Variable format_date : json -> option string.

(** The values of one row of the accounts list. *)
Record account_row : Type :=
  { row_issuer : json; row_account : json; row_code : string;
    row_time_left : Z; row_added : string }.

(** The body of the loop of [refresh_accounts_list] for one account:
    [None] when [generate_code] or the date raises. *)
Definition refresh_row (secrets : gmap string json) (time_now : Q)
    (item : string * account_info) : option (string * account_row) :=
  match generate_code secrets item.1 time_now with
  | Code code =>
      added_date ←
        (if json_truthy (info_added item.2)
         then format_date (info_added item.2) else Some "Unknown");
      Some (item.1,
            {| row_issuer := info_issuer item.2;
               row_account := info_account item.2;
               row_code := code;
               row_time_left := get_time_remaining time_now;
               row_added := added_date |})
  | _ => None
  end.

(** [TOTPManagerGUI.refresh_accounts_list]: the rows put in the tree, each
    with the key [account_mapping] gives it, or [None] when the handler
    raises.  The rows come in the order of [map_to_list], not in the
    insertion order of the dict, and the whole refresh is given one clock
    reading. *)
Definition refresh_accounts_list (secrets : gmap string json) (time_now : Q)
  : option (list (string * account_row)) :=
  mapM (refresh_row secrets time_now) (map_to_list (list_accounts secrets)).

End GenerateCode.

(** ** Scanning a QR code *)

Section QRDecoder.

(** The images and the [OpenCV] calls of [QRDecoder.decode_qr]; [None] is
    an exception. *)
Variables image_pil mat : Type.
Variable to_bgr : image_pil -> option mat.
Variable to_gray : mat -> option mat.
Variable detectAndDecode : mat -> option string.

(** [QRDecoder.decode_qr]: every exception is caught and gives [None]. *)
Definition decode_qr (image : image_pil) : option string :=
  opencv_image ← to_bgr image;
  data ← detectAndDecode opencv_image;
  if negb (is_empty data) then Some data
  else
    gray ← to_gray opencv_image;
    data ← detectAndDecode gray;
    if negb (is_empty data) then Some data else None.

End QRDecoder.

Inductive qr_outcome : Type :=
  | QRNoValidCode                 (* "No valid 2FA QR code found" *)
  | QRAdded (secrets : gmap string json).

Section ProcessQR.

Variable totp_now : string -> Q -> option string.
Variable unquote_escapes : string -> string.

(** [TOTPManagerGUI.process_qr_image], from the decoded payload on:
    [extract_secret_from_image], then [add_account_from_qr] on a
    candidate.  [None] only if the collision loop ran out of fuel. *)
Definition process_qr_image (secrets : gmap string json)
    (decoded : option string) (time_now : Q) : option qr_outcome :=
  match extract_secret_from_image unquote_escapes decoded with
  | None => Some QRNoValidCode
  | Some qr_data =>
      match add_account_from_qr totp_now secrets qr_data time_now with
      | Some (true, secrets') => Some (QRAdded secrets')
      | Some (false, _) => Some QRNoValidCode
      | None => None
      end
  end.

End ProcessQR.

(** ** Deleting *)

(** [TOTPManagerGUI.delete_account]: [account_key] is what
    [account_mapping.get(item)] returned, [confirmed] the answer to the
    confirmation dialog.  Whether an account was removed, and the store
    afterwards. *)
Definition delete_account (secrets : gmap string json)
    (account_key : option string) (confirmed : bool)
  : bool * gmap string json :=
  match account_key with
  | None => (false, secrets)
  | Some key =>
      if is_empty key then (false, secrets)
      else if confirmed then remove_account secrets key
      else (false, secrets)
  end.

(** ** Sessions *)

(** The operations that change the store from the tree and the two add
    paths. *)
Inductive store_action : Type :=
  | ActAdd (request : add_request)
  | ActRename (account_key new_service new_account : string)
  | ActRemove (account_key : string).

Section Session.

Variable totp_now : string -> Q -> option string.

(** The store after one operation; a rename that finds no account or
    raises leaves it as it was. *)
Definition apply_action (secrets : gmap string json) (action : store_action)
  : option (gmap string json) :=
  match action with
  | ActAdd request =>
      match add_one totp_now secrets request with
      | Some (_, secrets') => Some secrets'
      | None => None
      end
  | ActRename account_key new_service new_account =>
      match rename_record secrets account_key new_service new_account with
      | Some (Renamed _ secrets') => Some secrets'
      | Some _ => Some secrets
      | None => None
      end
  | ActRemove account_key => Some (remove_account secrets account_key).2
  end.

Fixpoint run_session (secrets : gmap string json) (actions : list store_action)
  : option (gmap string json) :=
  match actions with
  | [] => Some secrets
  | action :: actions' =>
      match apply_action secrets action with
      | Some secrets' => run_session secrets' actions'
      | None => None
      end
  end.

End Session.

(** ** The setup script *)

Definition lower_ascii (a : ascii) : ascii :=
  let n := nat_of_ascii a in
  if (65 <=? n)%nat && (n <=? 90)%nat then ascii_of_nat (n + 32) else a.

(** [s.lower()]. *)
Fixpoint lower (s : string) : string :=
  match s with
  | EmptyString => EmptyString
  | String a s' => String (lower_ascii a) (lower s')
  end.

(** [p in s] for strings. *)
Fixpoint is_infix (p s : string) : bool :=
  String.prefix p s
  || match s with
     | EmptyString => false
     | String _ s' => is_infix p s'
     end.

(** [a < b] on tuples of integers: the first position where they differ
    decides, and a proper prefix is smaller. *)
Fixpoint tuple_lt (a b : list Z) : bool :=
  match a, b with
  | _, [] => false
  | [], _ :: _ => true
  | x :: a', y :: b' =>
      if (x <? y)%Z then true
      else if (y <? x)%Z then false
      else tuple_lt a' b'
  end.

(** [check_python_version] on the numeric fields of [sys.version_info]. *)
Definition check_python_version (major minor micro : Z) : bool :=
  negb (tuple_lt [major; minor; micro] [3; 8]%Z).

(** An answer typed at a prompt, as [input(...).strip().lower()] gives it,
    tested with [in ['y', 'yes']]. *)
Definition says_yes (typed : string) : bool :=
  let response := lower (strip typed) in
  String.eqb response "y" || String.eqb response "yes".

Section InstallRequirements.

(** [sys.executable]. *)
Variable executable : string.

(** [subprocess.check_call(cmd)]: [true] when the command exits with 0,
    [false] when it raises [CalledProcessError]. *)
Variable check_call : list string -> bool.

(** What the user does at the prompt: [None] is a [KeyboardInterrupt]. *)
Variable typed : option string.

Definition pip_install (flags : list string) : list string :=
  ([executable; "-m"; "pip"; "install"] ++ flags
   ++ ["-r"; "requirements.txt"])%list.

Definition install_commands : list (option (list string)) :=
  [Some (pip_install []); Some (pip_install ["--user"]); None].

(** The loop of [install_requirements] over the commands left to try.
    [ran] is the list of the commands run so far; the result is the
    returned flag and the commands run. *)
Fixpoint install_loop (commands : list (option (list string)))
    (ran : list (list string)) : bool * list (list string) :=
  match commands with
  | [] => (false, ran)
  | command :: commands' =>
      let chosen :=
        match command with
        | Some cmd => Some cmd
        | None =>
            match typed with
            | Some answer =>
                if says_yes answer
                then Some (pip_install ["--break-system-packages"])
                else None
            | None => None
            end
        end in
      match chosen with
      | None => (false, ran)
      | Some cmd =>
          if check_call cmd then (true, (ran ++ [cmd])%list)
          else install_loop commands' (ran ++ [cmd])%list
      end
  end.

(** [install_requirements]. *)
Definition install_requirements : bool * list (list string) :=
  install_loop install_commands [].

End InstallRequirements.

Section InstallTkinter.

(** [subprocess.run(cmd, ...)]: [Some true] for return code 0, [Some false]
    for another return code, [None] when it raises. *)
Variable run : list string -> option bool.

(** The package commands [install_tkinter] picks from the lower-cased text
    of [/etc/os-release]. *)
Definition distro_commands (os_info : string) : list (list string) :=
  if is_infix "ubuntu" os_info || is_infix "debian" os_info then
    [["sudo"; "apt-get"; "update"];
     ["sudo"; "apt-get"; "install"; "-y"; "python3-tk"; "python3-dev";
      "xclip"; "wl-clipboard"]]
  else if is_infix "centos" os_info || is_infix "rhel" os_info then
    [["sudo"; "yum"; "install"; "-y"; "tkinter"; "python3-devel"; "xclip";
      "wl-clipboard"]]
  else if is_infix "fedora" os_info then
    [["sudo"; "dnf"; "install"; "-y"; "python3-tkinter"; "python3-devel";
      "xclip"; "wl-clipboard"]]
  else if is_infix "arch" os_info then
    [["sudo"; "pacman"; "-S"; "--noconfirm"; "tk"; "python"; "xclip";
      "wl-clipboard"]]
  else if is_infix "opensuse" os_info || is_infix "suse" os_info then
    [["sudo"; "zypper"; "install"; "-y"; "python3-tk"; "python3-devel";
      "xclip"; "wl-clipboard"]]
  else [].

(** The loop over the commands: it returns [False] at the first command
    that fails or raises. *)
Fixpoint run_commands (commands : list (list string)) (ran : list (list string))
  : bool * list (list string) :=
  match commands with
  | [] => (true, ran)
  | cmd :: commands' =>
      match run cmd with
      | Some true => run_commands commands' (ran ++ [cmd])%list
      | _ => (false, (ran ++ [cmd])%list)
      end
  end.

(** [install_tkinter]: [system] is [platform.system().lower()],
    [os_release] the text of [/etc/os-release] ([None] when reading it
    raises).  The returned flag and the commands run. *)
Definition install_tkinter (system : string) (os_release : option string)
  : bool * list (list string) :=
  if String.eqb system "linux" then
    match os_release with
    | None => (false, [])
    | Some text =>
        match distro_commands (lower text) with
        | [] => (false, [])
        | commands => run_commands commands []
        end
    end
  else if String.eqb system "darwin" then (false, [])
  else if String.eqb system "windows" then (true, [])
  else (false, []).

End InstallTkinter.

(** * Properties *)

(** ** Strings *)

Lemma upper_length s : String.length (upper s) = String.length s.
Proof. induction s as [|a s IH]; simpl; [done | by rewrite IH]. Qed.

Lemma is_empty_true s : is_empty s = true <-> s = "".
Proof. destruct s; simpl; split; congruence. Qed.

Lemma is_empty_false s : is_empty s = false <-> s <> "".
Proof. destruct s; simpl; split; congruence. Qed.

(** Removing two characters from one more leading character adds at most
    that character. *)
Lemma remove2_cons c1 c2 a s :
  remove_char c2 (remove_char c1 (String a s)) = remove_char c2 (remove_char c1 s)
  \/ remove_char c2 (remove_char c1 (String a s))
     = String a (remove_char c2 (remove_char c1 s)).
Proof.
  simpl. destruct (Ascii.eqb a c1); [by left |].
  simpl. destruct (Ascii.eqb a c2); [by left | by right].
Qed.

Lemma remove2_lstrip_length c1 c2 s :
  (String.length (remove_char c2 (remove_char c1 (lstrip s)))
   <= String.length (remove_char c2 (remove_char c1 s)))%nat.
Proof.
  induction s as [|a s IH]; [done |].
  cbn [lstrip]. destruct (is_space a); [| done].
  destruct (remove2_cons c1 c2 a s) as [-> | ->]; simpl; lia.
Qed.

Lemma remove2_rstrip_length c1 c2 s :
  (String.length (remove_char c2 (remove_char c1 (rstrip s)))
   <= String.length (remove_char c2 (remove_char c1 s)))%nat.
Proof.
  induction s as [|a s IH]; [done |].
  cbn [rstrip]. destruct (rstrip s) as [|b r] eqn:Hr.
  - destruct (is_space a); [simpl; lia |].
    destruct (remove2_cons c1 c2 a s) as [E | E];
      destruct (remove2_cons c1 c2 a "") as [E' | E'];
      rewrite E, E'; simpl; try lia.
    simpl in E, E'. destruct (Ascii.eqb a c1); [discriminate |].
    simpl in E, E'. destruct (Ascii.eqb a c2); [discriminate |].
    exfalso. apply (f_equal String.length) in E. simpl in E. lia.
  - destruct (remove2_cons c1 c2 a s) as [E | E];
      destruct (remove2_cons c1 c2 a (String b r)) as [E' | E'];
      rewrite E, E'; simpl in *; try lia.
    destruct (Ascii.eqb a c1); [| simpl in *; destruct (Ascii.eqb a c2)].
    + exfalso. apply (f_equal String.length) in E'. simpl in E'. lia.
    + exfalso. apply (f_equal String.length) in E'. simpl in E'. lia.
    + exfalso. apply (f_equal String.length) in E. simpl in E. lia.
Qed.

(** The length the dialog tests is at most the length of the cleaned
    secret. *)
Lemma dialog_length_le_clean secret :
  (String.length (remove_char "-" (remove_char " " (strip secret)))
   <= String.length (clean_secret secret))%nat.
Proof.
  unfold clean_secret, strip. rewrite upper_length.
  etransitivity; [apply remove2_rstrip_length | apply remove2_lstrip_length].
Qed.

(** ** Time remaining *)

Lemma int_of_float_nonneg (t : Q) : (0 <= t)%Q -> int_of_float t = Qfloor t.
Proof.
  destruct t as [n d]. unfold Qle, int_of_float, Qfloor. simpl. intros H.
  apply Z.quot_div_nonneg; lia.
Qed.

Lemma int_of_float_inject (z : Z) : int_of_float (inject_Z z) = z.
Proof. unfold int_of_float, inject_Z. simpl. apply Z.quot_1_r. Qed.

Lemma get_time_remaining_range (t : Q) : (1 <= get_time_remaining t <= 30)%Z.
Proof.
  unfold get_time_remaining, TOTP_PERIOD.
  pose proof (Z.mod_pos_bound (int_of_float t) 30). lia.
Qed.

Lemma same_window_mod_le (a b : Z) :
  (a <= b)%Z -> (a / 30 = b / 30)%Z -> (a mod 30 <= b mod 30)%Z.
Proof.
  intros Hab Hq.
  pose proof (Z.div_mod a 30). pose proof (Z.div_mod b 30). lia.
Qed.

(** C10: a timestamp is a reading of [time.time()], seconds since the
    epoch, so it is not negative, and [int] is the floor there.  For every
    timestamp [t], [get_time_remaining t] equals [30 - (floor(t) mod 30)]
    and lies in [1, 30]; it does not increase between two readings of one
    30-second window; it is 30 at every window boundary [30 * k] and 1 one
    second before it, and it is 30 only in the first second of a window. *)
Theorem get_time_remaining_spec :
  (forall t : Q, (0 <= t)%Q ->
      get_time_remaining t = (30 - Qfloor t mod 30)%Z)
  /\ (forall t : Q, (1 <= get_time_remaining t <= 30)%Z)
  /\ (forall t1 t2 : Q, (0 <= t1)%Q -> (t1 <= t2)%Q ->
      (Qfloor t1 / 30 = Qfloor t2 / 30)%Z ->
      (get_time_remaining t2 <= get_time_remaining t1)%Z)
  /\ (forall k : Z,
      get_time_remaining (inject_Z (30 * k)) = 30%Z
      /\ get_time_remaining (inject_Z (30 * k - 1)) = 1%Z)
  /\ (forall t : Q, (0 <= t)%Q ->
      get_time_remaining t = 30%Z <-> (Qfloor t mod 30 = 0)%Z).
Proof.
  split; [| split; [| split; [| split]]].
  - intros t Ht. unfold get_time_remaining, TOTP_PERIOD.
    by rewrite int_of_float_nonneg.
  - apply get_time_remaining_range.
  - intros t1 t2 H1 H12 Hw.
    assert (H2 : (0 <= t2)%Q) by (eapply Qle_trans; eauto).
    unfold get_time_remaining, TOTP_PERIOD.
    rewrite !int_of_float_nonneg by done.
    pose proof (Qfloor_resp_le _ _ H12).
    pose proof (same_window_mod_le _ _ H Hw). lia.
  - intros k. unfold get_time_remaining, TOTP_PERIOD.
    rewrite !int_of_float_inject. split.
    + rewrite Z.mul_comm, Z.mod_mul by lia. lia.
    + replace (30 * k - 1)%Z with (29 + (k - 1) * 30)%Z by lia.
      rewrite Z.mod_add by lia. reflexivity.
  - intros t Ht. unfold get_time_remaining, TOTP_PERIOD.
    rewrite int_of_float_nonneg by done. lia.
Qed.

Lemma get_time_remaining_spec_witness :
  (0 <= 45 # 1)%Q /\ (45 # 1 <= 59 # 1)%Q
  /\ get_time_remaining (45 # 1) = (30 - Qfloor (45 # 1) mod 30)%Z
  /\ (get_time_remaining (59 # 1) <= get_time_remaining (45 # 1))%Z.
Proof.
  assert (H0 : (0 <= 45 # 1)%Q) by (unfold Qle; simpl; lia).
  assert (H1 : (45 # 1 <= 59 # 1)%Q) by (unfold Qle; simpl; lia).
  destruct get_time_remaining_spec as (Hfloor & _ & Hmono & _ & _).
  split; [exact H0 | split; [exact H1 | split]].
  - apply Hfloor, H0.
  - apply Hmono; [exact H0 | exact H1 | reflexivity].
Defined.

(** ** The collision loop *)

Lemma string_app_inj_l (p a b : string) : p +:+ a = p +:+ b -> a = b.
Proof. induction p as [|c p IH]; simpl; [done |]. intros [= H]. by apply IH. Qed.

Lemma suffixed_inj (base : string) (i j : nat) :
  suffixed base i = suffixed base j -> i = j.
Proof.
  unfold suffixed. intros H.
  apply string_app_inj_l in H. apply (string_app_inj_l "_") in H.
  by apply pretty_nat_inj in H.
Qed.

Lemma key_in_true secrets name :
  key_in secrets name = true <-> is_Some (secrets !! name).
Proof. unfold key_in. by rewrite bool_decide_eq_true. Qed.

Lemma key_in_false secrets name :
  key_in secrets name = false <-> secrets !! name = None.
Proof.
  unfold key_in. rewrite bool_decide_eq_false. by rewrite eq_None_not_Some.
Qed.

(** What the loop returns: the name it started with if that is free,
    otherwise the first free [base_n] from [counter] on. *)
Lemma suffix_loop_spec fuel taken base name counter k :
  suffix_loop fuel taken base name counter = Some k ->
  (k = name /\ taken name = false)
  \/ (taken name = true
      /\ exists n, (counter <= n)%nat /\ k = suffixed base n
           /\ taken (suffixed base n) = false
           /\ forall j, (counter <= j < n)%nat -> taken (suffixed base j) = true).
Proof.
  revert name counter.
  induction fuel as [|fuel IH]; intros name counter; simpl; [done |].
  destruct (taken name) eqn:Ht; [| intros [= <-]; by left].
  intros H. right. split; [done |].
  destruct (IH _ _ H) as [[-> Hfree] | [Htk (n & Hn & -> & Hfree & Hbefore)]].
  - exists counter. repeat split; [lia | done | intros j Hj; lia].
  - exists n. repeat split; [lia | done |].
    intros j Hj. destruct (decide (j = counter)) as [-> | Hne]; [done |].
    apply Hbefore. lia.
Qed.

(** The loop returns as soon as a free suffix lies within its fuel. *)
Lemma suffix_loop_total fuel taken base name counter :
  (exists n, (counter <= n < counter + fuel)%nat
             /\ taken (suffixed base n) = false) ->
  exists k, suffix_loop (S fuel) taken base name counter = Some k.
Proof.
  revert name counter.
  induction fuel as [|fuel IH]; intros name counter (n & Hn & Hfree); [lia |].
  cbn [suffix_loop]. destruct (taken name); [| by eexists].
  change (exists k, suffix_loop (S fuel) taken base (suffixed base counter)
                      (S counter) = Some k).
  destruct (taken (suffixed base counter)) eqn:Hc.
  - apply IH. exists n. split; [| done].
    destruct (decide (n = counter)) as [-> | Hne]; [congruence | lia].
  - simpl. rewrite Hc. by eexists.
Qed.

(** Pigeonhole: a store of [n] records leaves one of
    [base_1 .. base_(n+1)] free. *)
Lemma exists_free_suffix (secrets : gmap string json) (base : string) :
  exists n, (1 <= n < 1 + S (size secrets))%nat
            /\ secrets !! suffixed base n = None.
Proof.
  set (cands := suffixed base <$> seq 1 (S (size secrets))).
  destruct (decide (Forall (fun k => is_Some (secrets !! k)) cands))
    as [Hall | Hex].
  - exfalso.
    assert (Hnd : NoDup cands).
    { apply NoDup_fmap_2; [| apply NoDup_seq].
      intros i j. apply suffixed_inj. }
    assert (Hsub : (list_to_set cands : gset string) ⊆ dom secrets).
    { intros k Hk. apply elem_of_list_to_set in Hk. apply elem_of_dom.
      rewrite Forall_forall in Hall. by apply Hall. }
    apply subseteq_size in Hsub.
    rewrite size_list_to_set, size_dom in Hsub by done.
    unfold cands in Hsub. rewrite length_fmap, length_seq in Hsub. lia.
  - apply not_Forall_Exists in Hex; [| intros k; apply _].
    apply Exists_exists in Hex as (k & Hk & Hfree).
    apply list_elem_of_fmap in Hk as (n & -> & Hn).
    apply elem_of_seq in Hn. exists n. split; [lia |].
    by apply eq_None_not_Some.
Qed.

Lemma unique_name_total secrets base :
  exists k, unique_name secrets base = Some k.
Proof.
  apply suffix_loop_total.
  destruct (exists_free_suffix secrets base) as (n & Hn & Hfree).
  exists n. split; [lia | by apply key_in_false].
Qed.

Lemma rename_key_total secrets account_key base :
  exists k, rename_key secrets account_key base = Some k.
Proof.
  apply suffix_loop_total.
  destruct (exists_free_suffix secrets base) as (n & Hn & Hfree).
  exists n. split; [lia |].
  apply key_in_false in Hfree. by rewrite Hfree.
Qed.

(** The key of an add: the base name if it is free, otherwise [base_n] for
    the least [n >= 1] with [base_n] free.  It is never a key of the
    store. *)
Lemma unique_name_spec secrets base k :
  unique_name secrets base = Some k ->
  secrets !! k = None
  /\ ((k = base /\ secrets !! base = None)
      \/ (is_Some (secrets !! base)
          /\ exists n, (1 <= n)%nat /\ k = suffixed base n
               /\ forall j, (1 <= j < n)%nat ->
                    is_Some (secrets !! suffixed base j))).
Proof.
  intros H. apply suffix_loop_spec in H
    as [[-> Hf] | [Ht (n & Hn & -> & Hf & Hb)]].
  - apply key_in_false in Hf. split; [done | by left].
  - apply key_in_false in Hf. split; [done | right].
    split; [by apply key_in_true |].
    exists n. repeat split; [done |]. intros j Hj. by apply key_in_true, Hb.
Qed.

Lemma unique_name_free secrets base :
  secrets !! base = None -> unique_name secrets base = Some base.
Proof.
  intros Hf. unfold unique_name. cbn [suffix_loop].
  apply key_in_false in Hf. by rewrite Hf.
Qed.


(** ** Adding accounts *)

Section AddAccount.

Variable totp_now : string -> Q -> option string.

Lemma add_account_manual_accepted secrets name secret issuer time_now :
  is_Some (totp_now (clean_secret secret) time_now) ->
  exists key,
    unique_name secrets (issuer +:+ "_" +:+ name) = Some key
    /\ secrets !! key = None
    /\ add_account_manual totp_now secrets name secret issuer time_now
       = Some (true, <[key := account_record (clean_secret secret) name issuer
                                time_now]> secrets).
Proof.
  intros [code Hcode]. unfold add_account_manual. rewrite Hcode.
  destruct (unique_name_total secrets (issuer +:+ "_" +:+ name)) as [key Hkey].
  exists key. rewrite Hkey. split; [done |].
  split; [by apply unique_name_spec in Hkey as [? _] | done].
Qed.

Lemma add_account_manual_refused secrets name secret issuer time_now :
  totp_now (clean_secret secret) time_now = None ->
  add_account_manual totp_now secrets name secret issuer time_now
  = Some (false, secrets).
Proof. intros H. unfold add_account_manual. by rewrite H. Qed.

Lemma add_account_from_qr_accepted secrets qr_data time_now :
  is_Some (totp_now (qr_secret qr_data) time_now) ->
  exists name,
    unique_name secrets (qr_issuer qr_data +:+ "_" +:+ qr_account qr_data)
    = Some name
    /\ secrets !! name = None
    /\ add_account_from_qr totp_now secrets qr_data time_now
       = Some (true, <[name := account_record (qr_secret qr_data)
                                 (qr_account qr_data) (qr_issuer qr_data)
                                 time_now]> secrets).
Proof.
  intros [code Hcode]. unfold add_account_from_qr. rewrite Hcode.
  destruct (unique_name_total secrets
              (qr_issuer qr_data +:+ "_" +:+ qr_account qr_data)) as [name Hname].
  exists name. rewrite Hname. split; [done |].
  split; [by apply unique_name_spec in Hname as [? _] | done].
Qed.

Lemma add_account_from_qr_refused secrets qr_data time_now :
  totp_now (qr_secret qr_data) time_now = None ->
  add_account_from_qr totp_now secrets qr_data time_now = Some (false, secrets).
Proof. intros H. unfold add_account_from_qr. by rewrite H. Qed.

(** Both add paths return: the collision loop never runs out of fuel. *)
Lemma add_account_from_qr_total secrets qr_data time_now :
  is_Some (add_account_from_qr totp_now secrets qr_data time_now).
Proof.
  destruct (totp_now (qr_secret qr_data) time_now) as [code|] eqn:H.
  - destruct (add_account_from_qr_accepted secrets qr_data time_now)
      as (? & _ & _ & ->); [by rewrite H | done].
  - by rewrite add_account_from_qr_refused.
Qed.

Lemma add_account_manual_total secrets name secret issuer time_now :
  is_Some (add_account_manual totp_now secrets name secret issuer time_now).
Proof.
  destruct (totp_now (clean_secret secret) time_now) as [code|] eqn:H.
  - destruct (add_account_manual_accepted secrets name secret issuer time_now)
      as (? & _ & _ & ->); [by rewrite H | done].
  - by rewrite add_account_manual_refused.
Qed.

(** [add_account_manual] itself has no length test: whatever the library
    accepts is stored, however short. *)
Lemma add_account_manual_no_length_test secrets time_now :
  is_Some (totp_now "SHORT" time_now) ->
  exists secrets',
    add_account_manual totp_now secrets "bob" "short" "Test" time_now
    = Some (true, secrets').
Proof.
  intros H.
  destruct (add_account_manual_accepted secrets "bob" "short" "Test" time_now)
    as (key & _ & _ & ->); [done | by eexists].
Qed.

(** A dialog that does not produce a result keeps [add_account_manual], and
    with it the TOTP construction, from running. *)
Lemma show_manual_entry_rejected secrets service_var account_var secret_var
    time_now :
  (forall i a s,
      ManualEntryDialog_accept service_var account_var secret_var
      <> ManualResult i a s) ->
  show_manual_entry totp_now secrets service_var account_var secret_var time_now
  = Some (EntryRejected
            (ManualEntryDialog_accept service_var account_var secret_var)).
Proof.
  intros H. unfold show_manual_entry.
  destruct (ManualEntryDialog_accept service_var account_var secret_var)
    eqn:E; try done.
  by destruct (H issuer account secret).
Qed.

Lemma ManualEntryDialog_accept_short service_var account_var secret_var :
  (String.length (clean_secret secret_var) < MIN_SECRET_LENGTH)%nat ->
  ManualEntryDialog_accept service_var account_var secret_var
  = if is_empty (strip account_var) then ManualMissingAccount
    else if is_empty (strip secret_var) then ManualMissingSecret
    else ManualSecretTooShort.
Proof.
  intros Hlen. unfold ManualEntryDialog_accept.
  destruct (is_empty (strip account_var)); [done |].
  destruct (is_empty (strip secret_var)); [done |].
  pose proof (dialog_length_le_clean secret_var) as Hle.
  destruct (Nat.ltb_spec
              (String.length (remove_char "-" (remove_char " " (strip secret_var))))
              MIN_SECRET_LENGTH); [done | lia].
Qed.

(** C1 (amended): for every store, service, account name and raw secret
    whose normalized form is shorter than 16 characters, the manual-add
    entry point (the dialog in front of [add_account_manual]) rejects the
    entry before [add_account_manual] and the TOTP construction run; the
    error is SecretTooShort when the account name and the secret are not
    empty after trimming, and otherwise the missing-account-name or the
    missing-secret error.  The entry ("Test", "bob", "short") is rejected
    with SecretTooShort, and ("Test", "bob", "JBSWY3DPEHPK3PXP") is added
    under a fresh key when the TOTP library accepts that secret. *)
Theorem manual_entry_short_secret (secrets : gmap string json)
    (service_var account_var secret_var : string) (time_now : Q) :
  ((String.length (clean_secret secret_var) < MIN_SECRET_LENGTH)%nat ->
   show_manual_entry totp_now secrets service_var account_var secret_var time_now
   = Some (EntryRejected
             (if is_empty (strip account_var) then ManualMissingAccount
              else if is_empty (strip secret_var) then ManualMissingSecret
              else ManualSecretTooShort)))
  /\ show_manual_entry totp_now secrets "Test" "bob" "short" time_now
     = Some (EntryRejected ManualSecretTooShort)
  /\ (is_Some (totp_now "JBSWY3DPEHPK3PXP" time_now) ->
      exists key,
        secrets !! key = None
        /\ unique_name secrets "Test_bob" = Some key
        /\ show_manual_entry totp_now secrets "Test" "bob" "JBSWY3DPEHPK3PXP"
             time_now
           = Some (EntryAdded
                     (<[key := account_record "JBSWY3DPEHPK3PXP" "bob" "Test"
                                 time_now]> secrets))).
Proof.
  split; [| split].
  - intros Hlen.
    rewrite <- (ManualEntryDialog_accept_short service_var _ _ Hlen).
    apply show_manual_entry_rejected. intros i a s.
    rewrite (ManualEntryDialog_accept_short _ _ _ Hlen).
    by repeat case_match.
  - reflexivity.
  - intros Hok.
    destruct (add_account_manual_accepted secrets "bob" "JBSWY3DPEHPK3PXP"
                "Test" time_now) as (key & Hkey & Hfree & Hadd); [done |].
    exists key. split; [done |]. split; [done |].
    unfold show_manual_entry.
    change (ManualEntryDialog_accept "Test" "bob" "JBSWY3DPEHPK3PXP")
      with (ManualResult "Test" "bob" "JBSWY3DPEHPK3PXP").
    cbv beta iota. by rewrite Hadd.
Qed.

End AddAccount.

Lemma manual_entry_short_secret_witness :
  (String.length (clean_secret "abc-def") < MIN_SECRET_LENGTH)%nat
  /\ is_Some (sample_totp "JBSWY3DPEHPK3PXP" 0)
  /\ show_manual_entry sample_totp ∅ "Test" "bob" "abc-def" 0
     = Some (EntryRejected ManualSecretTooShort)
  /\ exists key,
       show_manual_entry sample_totp ∅ "Test" "bob" "JBSWY3DPEHPK3PXP" 0
       = Some (EntryAdded
                 (<[key := account_record "JBSWY3DPEHPK3PXP" "bob" "Test" 0]> ∅)).
Proof.
  assert (Hlen : (String.length (clean_secret "abc-def") < MIN_SECRET_LENGTH)%nat)
    by (vm_compute; lia).
  assert (Hok : is_Some (sample_totp "JBSWY3DPEHPK3PXP" 0))
    by (vm_compute; eauto).
  destruct (manual_entry_short_secret sample_totp ∅ "Test" "bob" "abc-def" 0)
    as (Hshort & _ & Hadd).
  split; [exact Hlen | split; [exact Hok | split]].
  - exact (Hshort Hlen).
  - destruct (Hadd Hok) as (key & _ & _ & Hkey). exists key. exact Hkey.
Defined.

(** C1, as the claim states it, fails on entries the dialog stops at an
    earlier test: with an empty account name the error is the missing
    account name, and with an empty secret it is the missing secret,
    although the normalized secret is shorter than 16 characters. *)
Lemma manual_entry_short_secret_counterexample :
  (String.length (clean_secret "short") < MIN_SECRET_LENGTH)%nat
  /\ show_manual_entry sample_totp ∅ "Test" "" "short" 0
     = Some (EntryRejected ManualMissingAccount)
  /\ (String.length (clean_secret "") < MIN_SECRET_LENGTH)%nat
  /\ show_manual_entry sample_totp ∅ "Test" "bob" "" 0
     = Some (EntryRejected ManualMissingSecret)
  /\ ~ (forall account_var secret_var,
         (String.length (clean_secret secret_var) < MIN_SECRET_LENGTH)%nat ->
         show_manual_entry sample_totp ∅ "Test" account_var secret_var 0
         = Some (EntryRejected ManualSecretTooShort)).
Proof.
  split; [vm_compute; lia |]. split; [reflexivity |].
  split; [vm_compute; lia |]. split; [reflexivity |].
  intros H. specialize (H "" "short"). 
  assert (Hlen : (String.length (clean_secret "short") < MIN_SECRET_LENGTH)%nat)
    by (vm_compute; lia).
  specialize (H Hlen). discriminate H.
Qed.

(** ** Normalized secrets *)

Lemma contains_remove_char_same c s : contains c (remove_char c s) = false.
Proof.
  induction s as [|a s IH]; simpl; [done |].
  destruct (Ascii.eqb a c) eqn:E; simpl; [done | by rewrite E].
Qed.

Lemma contains_remove_char_other c d s :
  contains c s = false -> contains c (remove_char d s) = false.
Proof.
  induction s as [|a s IH]; simpl; [done |].
  destruct (Ascii.eqb a c) eqn:E; [done |]. intros H.
  destruct (Ascii.eqb a d); simpl; [by apply IH | rewrite E; by apply IH].
Qed.

Lemma upper_ascii_idemp a : upper_ascii (upper_ascii a) = upper_ascii a.
Proof. by destruct a as [[] [] [] [] [] [] [] []]. Qed.

Lemma upper_ascii_preserves_absent (c a : ascii) :
  upper_ascii c = c -> Ascii.eqb a c = false ->
  (nat_of_ascii c < 65 \/ 90 < nat_of_ascii c)%nat ->
  Ascii.eqb (upper_ascii a) c = false.
Proof.
  intros Hc Hne Hnot. apply Ascii.eqb_neq. apply Ascii.eqb_neq in Hne.
  intros E. unfold upper_ascii in E.
  destruct ((97 <=? nat_of_ascii a)%nat && (nat_of_ascii a <=? 122)%nat) eqn:Hl;
    [| done].
  apply andb_true_iff in Hl as [H1 H2].
  apply Nat.leb_le in H1, H2.
  apply (f_equal nat_of_ascii) in E.
  rewrite nat_ascii_embedding in E by lia. lia.
Qed.

Lemma contains_upper (c : ascii) s :
  upper_ascii c = c ->
  (nat_of_ascii c < 65 \/ 90 < nat_of_ascii c)%nat ->
  contains c s = false -> contains c (upper s) = false.
Proof.
  intros Hc Hnot. induction s as [|a s IH]; simpl; [done |].
  destruct (Ascii.eqb a c) eqn:E; [done |]. intros H.
  by rewrite (upper_ascii_preserves_absent c a Hc E Hnot), IH.
Qed.

Lemma upper_idemp s : upper (upper s) = upper s.
Proof.
  induction s as [|a s IH]; simpl; [done |]. by rewrite upper_ascii_idemp, IH.
Qed.

(** What the manual path stores is normalized: no space, no hyphen, and
    upper-casing changes nothing. *)
Lemma clean_secret_normalized secret :
  contains " " (clean_secret secret) = false
  /\ contains "-" (clean_secret secret) = false
  /\ upper (clean_secret secret) = clean_secret secret.
Proof.
  unfold clean_secret. split; [| split].
  - apply contains_upper; [done | vm_compute; lia |].
    apply contains_remove_char_other, contains_remove_char_same.
  - apply contains_upper; [done | vm_compute; lia |].
    apply contains_remove_char_same.
  - apply upper_idemp.
Qed.

(** C2 (the code at the failing input): [add_account_from_qr] validates
    the candidate's secret as it is and stores it verbatim.  A candidate
    with the lower-case secret "jbswy3dpehpk3pxp", which the TOTP library
    accepts, is committed with that lower-case secret, not with its
    normalized form "JBSWY3DPEHPK3PXP"; the manual path stores the
    normalized form.  The candidate is the one parsed from the payload
    [otpauth://totp/Example:alice?secret=jbswy3dpehpk3pxp]. *)
Theorem add_account_from_qr_stores_secret_verbatim
    (totp_now : string -> Q -> option string) (time_now : Q) :
  is_Some (totp_now "jbswy3dpehpk3pxp" time_now) ->
  is_Some (totp_now "JBSWY3DPEHPK3PXP" time_now) ->
  add_account_from_qr totp_now ∅
    {| qr_secret := "jbswy3dpehpk3pxp"; qr_account := "alice";
       qr_issuer := "Example" |} time_now
  = Some (true, <["Example_alice" :=
                    account_record "jbswy3dpehpk3pxp" "alice" "Example"
                      time_now]> ∅)
  /\ add_account_manual totp_now ∅ "alice" "jbswy3dpehpk3pxp" "Example" time_now
     = Some (true, <["Example_alice" :=
                       account_record "JBSWY3DPEHPK3PXP" "alice" "Example"
                         time_now]> ∅)
  /\ clean_secret "jbswy3dpehpk3pxp" = "JBSWY3DPEHPK3PXP"
  /\ "jbswy3dpehpk3pxp" <> clean_secret "jbswy3dpehpk3pxp"
  /\ (forall unquote_escapes,
      extract_secret_from_image unquote_escapes
        (Some "otpauth://totp/Example:alice?secret=jbswy3dpehpk3pxp")
      = Some {| qr_secret := "jbswy3dpehpk3pxp"; qr_account := "alice";
                qr_issuer := "Example" |}).
Proof.
  intros [c1 H1] [c2 H2]. split; [| split; [| split; [| split]]];
    [| | | | reflexivity].
  - unfold add_account_from_qr. simpl qr_secret. by rewrite H1.
  - unfold add_account_manual.
    change (clean_secret "jbswy3dpehpk3pxp") with "JBSWY3DPEHPK3PXP".
    by rewrite H2.
  - reflexivity.
  - vm_compute. congruence.
Qed.

Lemma add_account_from_qr_stores_secret_verbatim_witness :
  add_account_from_qr sample_totp ∅
    {| qr_secret := "jbswy3dpehpk3pxp"; qr_account := "alice";
       qr_issuer := "Example" |} 0
  = Some (true, <["Example_alice" :=
                    account_record "jbswy3dpehpk3pxp" "alice" "Example" 0]> ∅).
Proof.
  refine (proj1 (add_account_from_qr_stores_secret_verbatim sample_totp 0 _ _));
    vm_compute; eauto.
Defined.

(** Whatever the candidate, an accepted QR add commits the candidate's own
    secret. *)
Lemma add_account_from_qr_secret_field totp_now secrets qr_data time_now secrets' :
  add_account_from_qr totp_now secrets qr_data time_now = Some (true, secrets') ->
  exists name,
    secrets !! name = None
    /\ secrets' !! name
       = Some (account_record (qr_secret qr_data) (qr_account qr_data)
                 (qr_issuer qr_data) time_now).
Proof.
  intros H.
  destruct (totp_now (qr_secret qr_data) time_now) as [code|] eqn:Hc.
  - destruct (add_account_from_qr_accepted totp_now secrets qr_data time_now)
      as (name & _ & Hfree & Hadd); [by rewrite Hc |].
    rewrite Hadd in H. injection H as <-.
    exists name. split; [done | by rewrite lookup_insert_eq].
  - by rewrite add_account_from_qr_refused in H.
Qed.

(** ** Key uniqueness *)






(** A successful add is an insertion under a key the store did not have:
    every record stored before is still there, and the store has one
    record more. *)
Lemma insert_fresh_keeps (secrets : gmap string json) key record :
  secrets !! key = None ->
  size (<[key := record]> secrets) = S (size secrets)
  /\ forall k r, secrets !! k = Some r -> <[key := record]> secrets !! k = Some r.
Proof.
  intros Hfree. split; [by apply map_size_insert_None |].
  intros k r Hk. rewrite lookup_insert_ne; [done | congruence].
Qed.

(** One add call returns, and either leaves the store alone or inserts one
    record under a key the store did not have. *)
Lemma add_one_fresh totp_now (secrets : gmap string json) request :
  exists added secrets',
    add_one totp_now secrets request = Some (added, secrets')
    /\ size secrets' = ((if added then 1 else 0) + size secrets)%nat
    /\ forall k r, secrets !! k = Some r -> secrets' !! k = Some r.
Proof.
  destruct request as [qr_data time_now | name secret issuer time_now]; simpl.
  - destruct (totp_now (qr_secret qr_data) time_now) as [code|] eqn:Hc.
    + destruct (add_account_from_qr_accepted totp_now secrets qr_data time_now)
        as (key & _ & Hfree & ->); [by rewrite Hc |].
      eexists true, _. split; [done |]. by apply insert_fresh_keeps.
    + rewrite add_account_from_qr_refused by done. by eexists false, _.
  - destruct (totp_now (clean_secret secret) time_now) as [code|] eqn:Hc.
    + destruct (add_account_manual_accepted totp_now secrets name secret issuer
                  time_now) as (key & _ & Hfree & ->); [by rewrite Hc |].
      eexists true, _. split; [done |]. by apply insert_fresh_keeps.
    + rewrite add_account_manual_refused by done. by eexists false, _.
Qed.





(** ** Export and import *)

Lemma filter_none {A} (P : A -> Prop) `{!forall x, Decision (P x)} (l : list A) :
  (forall x, ~ P x) -> filter P l = [].
Proof.
  intros HP. induction l as [|x l IH]; [done |].
  rewrite filter_cons_False by apply HP. done.
Qed.

(** Importing an export-shaped document into the empty store adopts its
    accounts, whatever the answer to the conflict dialog would be: there is
    no conflict, so the dialog is not shown. *)
Lemma import_into_empty (accounts : gmap string json) (rest : gmap string json)
    (answer : conflict_answer) :
  import_accounts ∅ (JObject (<["accounts" := JObject accounts]> rest)) answer
  = Imported (size accounts) accounts.
Proof.
  unfold import_accounts. rewrite lookup_insert_eq.
  rewrite filter_none by (intros name [x Hx]; by rewrite lookup_empty in Hx).
  by rewrite (right_id_L ∅ (∪)).
Qed.

(** With the replace answer the imported accounts win over the stored ones
    and the other stored accounts stay. *)
Lemma import_replace (secrets accounts rest : gmap string json) :
  import_accounts secrets (JObject (<["accounts" := JObject accounts]> rest))
    ReplaceConflicts
  = Imported (size accounts) (accounts ∪ secrets).
Proof.
  unfold import_accounts. rewrite lookup_insert_eq. by case_match.
Qed.

(** C3, as the claim states it, fails for the empty store: the export
    handler returns at its first test and produces no document. *)
Lemma export_import_roundtrip_counterexample :
  export_accounts ∅ 0 = None
  /\ ~ (exists document,
          export_accounts ∅ 0 = Some document
          /\ import_accounts ∅ document ReplaceConflicts = Imported 0 ∅).
Proof.
  split; [reflexivity |]. intros (document & Hexp & _). discriminate Hexp.
Qed.

(** C3 (amended): for every non-empty store S and export time, exporting S
    gives the document with version "1.0", the accounts mapping S and the
    exported_at timestamp, and importing that document into an empty store
    (with the replace policy, and with any other answer, since nothing
    conflicts) yields exactly S, with [len(S)] accounts imported. *)
Theorem export_import_roundtrip (secrets : gmap string json) (time_now : Q)
    (answer : conflict_answer) :
  secrets <> ∅ ->
  exists document,
    export_accounts secrets time_now = Some document
    /\ document = JObject (<["version" := JString "1.0"]>
                          (<["accounts" := JObject secrets]>
                          (<["exported_at" := JNumber time_now]> ∅)))
    /\ import_accounts ∅ document ReplaceConflicts
       = Imported (size secrets) secrets
    /\ import_accounts ∅ document answer = Imported (size secrets) secrets.
Proof.
  intros Hne. eexists. split; [| split; [reflexivity |]].
  - unfold export_accounts.
    destruct (Nat.eqb_spec (size secrets) 0) as [H0 | _]; [| reflexivity].
    by apply map_size_empty_iff in H0.
  - assert (Hswap :
      <["version" := JString "1.0"]>
        (<["accounts" := JObject secrets]>
           (<["exported_at" := JNumber time_now]> (∅ : gmap string json)))
      = <["accounts" := JObject secrets]>
          (<["version" := JString "1.0"]>
             (<["exported_at" := JNumber time_now]> ∅)))
      by (by apply insert_insert_ne).
    rewrite Hswap. split; apply import_into_empty.
Qed.

Lemma export_import_roundtrip_witness :
  let secrets : gmap string json := <["A_b" := sample_record]> ∅ in
  secrets <> ∅
  /\ exists document,
       export_accounts secrets 1700000100 = Some document
       /\ import_accounts ∅ document ReplaceConflicts = Imported 1 secrets.
Proof.
  intros secrets.
  assert (Hne : secrets <> ∅) by apply insert_non_empty.
  split; [exact Hne |].
  destruct (export_import_roundtrip secrets 1700000100 ReplaceConflicts Hne)
    as (document & Hexp & _ & Himp & _).
  exists document. split; [exact Hexp | exact Himp].
Defined.

(** ** Loading *)

(** C7: loading a document whose top level is an object with exactly the
    keys [salt] and [data] (the legacy encrypted format), whatever their
    values and whatever the store held, leaves the store empty and reports
    success; nothing of the document reaches the store.  The same holds for
    any object that has both keys. *)
Theorem load_secrets_legacy :
  (forall (secrets salt data : json),
      load_secrets secrets
        (FileContent (JObject (<["salt" := salt]> (<["data" := data]> ∅))))
      = (true, JObject ∅))
  /\ (forall (salt data : json),
      startup_load
        (FileContent (JObject (<["salt" := salt]> (<["data" := data]> ∅))))
      = (true, JObject ∅))
  /\ load_secrets TOTPManager_init
       (FileContent (JObject (<["salt" := JString "x"]>
                             (<["data" := JString "y"]> ∅))))
     = (true, JObject ∅)
  /\ (forall (secrets : json) (o : gmap string json),
      is_Some (o !! "salt") -> is_Some (o !! "data") ->
      load_secrets secrets (FileContent (JObject o)) = (true, JObject ∅)).
Proof.
  assert (Hgen : forall (secrets : json) (o : gmap string json),
             is_Some (o !! "salt") -> is_Some (o !! "data") ->
             load_secrets secrets (FileContent (JObject o)) = (true, JObject ∅)).
  { intros secrets o Hs Hd. simpl.
    by rewrite (bool_decide_eq_true_2 _ Hs), (bool_decide_eq_true_2 _ Hd). }
  assert (Hexact : forall (secrets salt data : json),
             load_secrets secrets
               (FileContent (JObject (<["salt" := salt]> (<["data" := data]> ∅))))
             = (true, JObject ∅)).
  { intros secrets salt data. apply Hgen.
    - rewrite lookup_insert_eq. by eexists.
    - rewrite lookup_insert_ne by done. rewrite lookup_insert_eq. by eexists. }
  split; [exact Hexact |]. split; [intros; apply Hexact |].
  split; [apply Hexact | exact Hgen].
Qed.

Lemma load_secrets_legacy_witness :
  let o : gmap string json :=
    <["salt" := JString "x"]> (<["data" := JString "y"]>
                               (<["extra" := JNull]> ∅)) in
  is_Some (o !! "salt") /\ is_Some (o !! "data")
  /\ load_secrets TOTPManager_init (FileContent (JObject o)) = (true, JObject ∅).
Proof.
  intros o.
  assert (Hs : is_Some (o !! "salt")) by (by eexists).
  assert (Hd : is_Some (o !! "data")) by (by eexists).
  split; [exact Hs | split; [exact Hd |]].
  exact (proj2 (proj2 (proj2 load_secrets_legacy)) TOTPManager_init o Hs Hd).
Defined.

(** A document of any other shape is adopted as it is. *)
Lemma load_secrets_adopts (secrets : json) (o : gmap string json) :
  o !! "salt" = None \/ o !! "data" = None ->
  load_secrets secrets (FileContent (JObject o)) = (true, JObject o).
Proof.
  intros H. simpl.
  destruct H as [H | H]; rewrite eq_None_not_Some in H.
  - by rewrite (bool_decide_eq_false_2 _ H).
  - rewrite (bool_decide_eq_false_2 _ H). by rewrite andb_false_r.
Qed.




(** ** Parsing the QR payload *)

Lemma split_first_app c pre rest :
  contains c pre = false ->
  split_first c (pre +:+ String c rest) = (pre, rest).
Proof.
  induction pre as [|a pre IH]; simpl.
  - intros _. by rewrite Ascii.eqb_refl.
  - destruct (Ascii.eqb a c); [done |]. intros H. by rewrite IH.
Qed.

Lemma contains_app_char c pre rest : contains c (pre +:+ String c rest) = true.
Proof.
  induction pre as [|a pre IH]; simpl.
  - by rewrite Ascii.eqb_refl.
  - by destruct (Ascii.eqb a c).
Qed.

(** Every string with a [c] splits at its first [c]. *)
Lemma split_first_contains c s :
  contains c s = true ->
  s = (split_first c s).1 +:+ String c (split_first c s).2
  /\ contains c (split_first c s).1 = false.
Proof.
  induction s as [|a s IH]; simpl; [done |].
  destruct (Ascii.eqb a c) eqn:E.
  - intros _. apply Ascii.eqb_eq in E as ->. done.
  - intros H. destruct (IH H) as [Hs Hc].
    destruct (split_first c s) as [l r]. simpl in *.
    rewrite E. split; [| done]. rewrite Hs at 1. reflexivity.
Qed.

Lemma startswith_nonempty p a s :
  startswith (String a p) s = true -> is_empty s = false.
Proof. by destruct s. Qed.

Section Parser.

Variable unquote_escapes : string -> string.

(** The values [parse_qs] lists under a name are the values of the fields
    of that name, in the order of the query string. *)
Lemma parse_qs_fold (name : string) (l : list (string * string))
    (m : gmap string (list string)) :
  foldl (fun m nv => <[nv.1 := (default [] (m !! nv.1) ++ [nv.2])%list]> m) m l
    !! name
  = match (filter (fun nv => nv.1 = name) l).*2 with
    | [] => m !! name
    | vs => Some (default [] (m !! name) ++ vs)%list
    end.
Proof.
  revert m. induction l as [|[n v] l IH]; intros m; [done |].
  cbn [foldl]. rewrite IH. cbn [fst snd].
  destruct (decide (n = name)) as [-> | Hne].
  - rewrite filter_cons_True by done. rewrite lookup_insert_eq.
    rewrite fmap_cons. cbn [snd default].
    destruct ((filter (fun nv => nv.1 = name) l).*2) as [|v' vs] eqn:E;
      [done |].
    unfold id. by rewrite <- app_assoc.
  - rewrite filter_cons_False by done. by rewrite lookup_insert_ne.
Qed.

(** [params.get(name, ...)[0]] is the value of the first field of that
    name, and the default applies exactly when there is no such field. *)
Lemma param_first_head (name qs : string) :
  param_first name (parse_qs unquote_escapes qs)
  = head (filter (fun nv => nv.1 = name) (parse_qsl unquote_escapes qs)).*2.
Proof.
  unfold param_first, parse_qs. rewrite parse_qs_fold.
  rewrite lookup_empty. cbn [default app].
  by destruct ((filter (fun nv => nv.1 = name)
                  (parse_qsl unquote_escapes qs)).*2).
Qed.

Lemma param_first_missing (name qs : string) :
  (forall v, (name, v) ∉ parse_qsl unquote_escapes qs) ->
  param_first name (parse_qs unquote_escapes qs) = None.
Proof.
  intros Hno. rewrite param_first_head.
  destruct (filter (fun nv => nv.1 = name) (parse_qsl unquote_escapes qs))
    as [|[n v] l] eqn:E; [done |].
  assert (Hin : (n, v) ∈ filter (fun nv => nv.1 = name)
                            (parse_qsl unquote_escapes qs))
    by (rewrite E; left).
  apply list_elem_of_filter in Hin as [Hn Hin]. simpl in Hn. subst n.
  by destruct (Hno v).
Qed.

(** The label [pre:rest] gives the account [rest]; [pre] is the issuer
    when the query has no [issuer] or has the issuer "Unknown". *)
Lemma extract_colon_label (qr_data pre rest secret : string) :
  let params := parse_qs unquote_escapes (query (urlparse qr_data)) in
  startswith "otpauth://totp/" qr_data = true ->
  lstrip_char "/" (path (urlparse qr_data)) = pre +:+ String ":" rest ->
  contains ":" pre = false ->
  param_first "secret" params = Some secret ->
  secret <> "" ->
  extract_secret_from_image unquote_escapes (Some qr_data)
  = Some {| qr_secret := secret;
            qr_account := rest;
            qr_issuer :=
              match param_first "issuer" params with
              | None => pre
              | Some issuer => if String.eqb issuer "Unknown" then pre else issuer
              end |}.
Proof.
  intros params Hpre Hlabel Hcolon Hsecret Hne.
  unfold extract_secret_from_image.
  rewrite (startswith_nonempty _ _ _ Hpre), Hpre. cbn [orb negb].
  fold params.
  rewrite Hlabel, contains_app_char, (split_first_app _ _ _ Hcolon), Hsecret.
  apply is_empty_false in Hne. rewrite Hne.
  by destruct (param_first "issuer" params).
Qed.

(** C5: for every payload that starts with [otpauth://totp/] and has a
    secret, if the label (the URL path without its leading slashes) is
    [pre:rest] with no colon in [pre], the candidate's account is [rest]
    and [pre] is the issuer taken from the label; the candidate's issuer is
    [pre] exactly when the [issuer] query parameter is absent or equals
    "Unknown", and otherwise it is the query parameter.  The payload
    [otpauth://totp/Example:alice@example.com?secret=JBSWY3DPEHPK3PXP&issuer=Example]
    yields the secret JBSWY3DPEHPK3PXP, the account alice@example.com and
    the issuer Example. *)
Theorem extract_label_with_colon (qr_data pre rest secret : string) :
  let params := parse_qs unquote_escapes (query (urlparse qr_data)) in
  startswith "otpauth://totp/" qr_data = true ->
  lstrip_char "/" (path (urlparse qr_data)) = pre +:+ String ":" rest ->
  contains ":" pre = false ->
  param_first "secret" params = Some secret ->
  secret <> "" ->
  extract_secret_from_image unquote_escapes (Some qr_data)
  = Some {| qr_secret := secret;
            qr_account := rest;
            qr_issuer :=
              match param_first "issuer" params with
              | None => pre
              | Some issuer => if String.eqb issuer "Unknown" then pre else issuer
              end |}
  /\ (param_first "issuer" params = None \/
      param_first "issuer" params = Some "Unknown" ->
      qr_issuer <$> extract_secret_from_image unquote_escapes (Some qr_data)
      = Some pre)
  /\ (forall issuer, param_first "issuer" params = Some issuer ->
      issuer <> "Unknown" ->
      qr_issuer <$> extract_secret_from_image unquote_escapes (Some qr_data)
      = Some issuer)
  /\ extract_secret_from_image unquote_escapes
       (Some "otpauth://totp/Example:alice@example.com?secret=JBSWY3DPEHPK3PXP&issuer=Example")
     = Some {| qr_secret := "JBSWY3DPEHPK3PXP";
               qr_account := "alice@example.com";
               qr_issuer := "Example" |}.
Proof.
  intros params Hpre Hlabel Hcolon Hsecret Hne.
  pose proof (extract_colon_label qr_data pre rest secret
                Hpre Hlabel Hcolon Hsecret Hne) as H.
  fold params in H.
  split; [exact H |]. split; [| split; [| reflexivity]].
  - intros [Hi | Hi]; rewrite H, Hi; reflexivity.
  - intros issuer Hi Hu. rewrite H, Hi. cbn.
    apply String.eqb_neq in Hu. by rewrite Hu.
Qed.

(** Without a colon the whole label is the account and the issuer is the
    query parameter or "Unknown". *)
Lemma extract_label_without_colon (qr_data secret : string) :
  startswith "otpauth://totp/" qr_data = true ->
  contains ":" (lstrip_char "/" (path (urlparse qr_data))) = false ->
  let params := parse_qs unquote_escapes (query (urlparse qr_data)) in
  param_first "secret" params = Some secret ->
  secret <> "" ->
  extract_secret_from_image unquote_escapes (Some qr_data)
  = Some {| qr_secret := secret;
            qr_account := lstrip_char "/" (path (urlparse qr_data));
            qr_issuer := default "Unknown" (param_first "issuer" params) |}.
Proof.
  intros Hpre Hcolon params Hsecret Hne.
  unfold extract_secret_from_image.
  rewrite (startswith_nonempty _ _ _ Hpre), Hpre. cbn [orb negb].
  fold params. rewrite Hcolon, Hsecret.
  apply is_empty_false in Hne. by rewrite Hne.
Qed.

(** C6: [extract_secret_from_image] returns [None], never a partial
    candidate, when the decoder returned [None], when the payload does not
    start with [otpauth://totp/] (as "not-a-totp-uri"), and when the query
    has no [secret] field. *)
Theorem extract_none :
  extract_secret_from_image unquote_escapes None = None
  /\ (forall qr_data : string,
      startswith "otpauth://totp/" qr_data = false ->
      extract_secret_from_image unquote_escapes (Some qr_data) = None)
  /\ extract_secret_from_image unquote_escapes (Some "not-a-totp-uri") = None
  /\ (forall qr_data : string,
      param_first "secret"
        (parse_qs unquote_escapes (query (urlparse qr_data))) = None ->
      extract_secret_from_image unquote_escapes (Some qr_data) = None)
  /\ (forall qr_data : string,
      (forall v, ("secret", v)
                 ∉ parse_qsl unquote_escapes (query (urlparse qr_data))) ->
      extract_secret_from_image unquote_escapes (Some qr_data) = None).
Proof.
  assert (Hmissing : forall qr_data : string,
             param_first "secret"
               (parse_qs unquote_escapes (query (urlparse qr_data))) = None ->
             extract_secret_from_image unquote_escapes (Some qr_data) = None).
  { intros qr_data Hs. unfold extract_secret_from_image.
    destruct (is_empty qr_data || negb (startswith "otpauth://totp/" qr_data));
      [done |].
    rewrite Hs. by repeat case_match. }
  split; [reflexivity |]. split.
  { intros qr_data Hpre. unfold extract_secret_from_image.
    by rewrite Hpre, orb_true_r. }
  split; [reflexivity |]. split; [exact Hmissing |].
  intros qr_data Hno. by apply Hmissing, param_first_missing.
Qed.

End Parser.

Lemma extract_label_with_colon_witness :
  extract_secret_from_image sample_unquote_escapes
    (Some "otpauth://totp/ACME:bob?secret=JBSWY3DPEHPK3PXP&issuer=Unknown")
  = Some {| qr_secret := "JBSWY3DPEHPK3PXP"; qr_account := "bob";
            qr_issuer := "ACME" |}.
Proof.
  refine (proj1 (extract_label_with_colon sample_unquote_escapes
                   "otpauth://totp/ACME:bob?secret=JBSWY3DPEHPK3PXP&issuer=Unknown"
                   "ACME" "bob" "JBSWY3DPEHPK3PXP" _ _ _ _ _));
    [reflexivity | reflexivity | reflexivity | reflexivity | discriminate].
Defined.

Lemma extract_none_witness :
  startswith "otpauth://totp/" "otpauth://hotp/ACME:bob?secret=JBSWY3DPEHPK3PXP"
  = false
  /\ extract_secret_from_image sample_unquote_escapes
       (Some "otpauth://hotp/ACME:bob?secret=JBSWY3DPEHPK3PXP") = None
  /\ param_first "secret"
       (parse_qs sample_unquote_escapes
          (query (urlparse "otpauth://totp/ACME:bob?issuer=ACME"))) = None
  /\ extract_secret_from_image sample_unquote_escapes
       (Some "otpauth://totp/ACME:bob?issuer=ACME") = None.
Proof.
  destruct (extract_none sample_unquote_escapes) as (_ & Hprefix & _ & Hsecret & _).
  split; [reflexivity |]. split; [apply Hprefix; reflexivity |].
  split; [reflexivity |]. apply Hsecret. reflexivity.
Defined.

(** *** The payload as a URI *)

Lemma contains_app c (a b : string) :
  contains c (a +:+ b) = contains c a || contains c b.
Proof.
  induction a as [|x a IH]; simpl; [done |]. by destruct (Ascii.eqb x c).
Qed.

Lemma remove_char_absent c s : contains c s = false -> remove_char c s = s.
Proof.
  induction s as [|a s IH]; simpl; [done |].
  destruct (Ascii.eqb a c); [done |]. intros H. by rewrite IH.
Qed.

Lemma split_first_absent c s :
  contains c s = false -> split_first c s = (s, "").
Proof.
  induction s as [|a s IH]; simpl; [done |].
  destruct (Ascii.eqb a c); [done |]. intros H. by rewrite IH.
Qed.

Lemma startswith_app (p s : string) : startswith p (p +:+ s) = true.
Proof.
  unfold startswith. induction p as [|a p IH]; simpl; [by destruct s |].
  by destruct (ascii_dec a a).
Qed.

(** For a payload [otpauth://totp/{label}?{query}] without TAB, CR, LF or
    [#], and with no [?] in the label, [urlparse] gives the path
    [/{label}] and the query [{query}]. *)
Lemma urlparse_label_query (label qs : string) :
  Forall (fun c => contains c label = false)
         ["009"; "013"; "010"; "#"; "?"]%char ->
  Forall (fun c => contains c qs = false) ["009"; "013"; "010"; "#"]%char ->
  urlparse ("otpauth://totp/" +:+ label +:+ "?" +:+ qs)
  = {| path := "/" +:+ label; query := qs |}.
Proof.
  rewrite !Forall_cons.
  intros (Lt & Lr & Ln & Lh & Lq & _) (Qt & Qr & Qn & Qh & _).
  unfold urlparse.
  assert (Hc : forall c,
             contains c "otpauth://totp/" = false -> contains c "?" = false ->
             contains c label = false -> contains c qs = false ->
             contains c ("otpauth://totp/" +:+ label +:+ "?" +:+ qs) = false).
  { intros c H1 H2 H3 H4. by rewrite !contains_app, H1, H2, H3, H4. }
  rewrite (remove_char_absent "009") by (by apply Hc).
  rewrite (remove_char_absent "013") by (by apply Hc).
  rewrite (remove_char_absent "010") by (by apply Hc).
  change (string_drop (String.length "otpauth://totp")
            ("otpauth://totp/" +:+ label +:+ "?" +:+ qs))
    with ("/" +:+ label +:+ "?" +:+ qs).
  rewrite split_first_absent by (by rewrite !contains_app, Lh, Qh).
  change ("/" +:+ label +:+ "?" +:+ qs) with (("/" +:+ label) +:+ String "?" qs).
  rewrite split_first_app; [done |].
  by rewrite contains_app, Lq.
Qed.

(** C5 on the URI itself: the payload
    [otpauth://totp/{pre}:{rest}?{query}] with a secret yields the account
    [rest], and the issuer [pre] or the [issuer] query parameter. *)
Lemma extract_uri_with_colon unquote_escapes (pre rest qs secret : string) :
  Forall (fun c => contains c (pre +:+ String ":" rest) = false)
         ["009"; "013"; "010"; "#"; "?"]%char ->
  Forall (fun c => contains c qs = false) ["009"; "013"; "010"; "#"]%char ->
  contains ":" pre = false ->
  startswith "/" pre = false ->
  param_first "secret" (parse_qs unquote_escapes qs) = Some secret ->
  secret <> "" ->
  extract_secret_from_image unquote_escapes
    (Some ("otpauth://totp/" +:+ (pre +:+ String ":" rest) +:+ "?" +:+ qs))
  = Some {| qr_secret := secret;
            qr_account := rest;
            qr_issuer :=
              match param_first "issuer" (parse_qs unquote_escapes qs) with
              | None => pre
              | Some issuer => if String.eqb issuer "Unknown" then pre else issuer
              end |}.
Proof.
  intros Hl Hq Hcolon Hslash Hsecret Hne.
  pose proof (urlparse_label_query _ _ Hl Hq) as Hurl.
  assert (Hlabel : lstrip_char "/" (String "/" (pre +:+ String ":" rest))
                   = pre +:+ String ":" rest).
  { cbn [lstrip_char]. rewrite Ascii.eqb_refl.
    destruct pre as [|a pre]; [done |].
    change (String a pre +:+ String ":" rest)
      with (String a (pre +:+ String ":" rest)).
    cbn [lstrip_char].
    destruct (Ascii.eqb a "/") eqn:E; [| done].
    apply Ascii.eqb_eq in E as ->. by destruct pre. }
  pose proof (extract_colon_label unquote_escapes
                ("otpauth://totp/" +:+ (pre +:+ String ":" rest) +:+ "?" +:+ qs)
                pre rest secret) as H.
  cbv zeta in H. rewrite Hurl in H. apply H; try done.
  apply startswith_app.
Qed.

(** ** Rename *)

(** The key of a rename is the record's own key or a key the store does not
    have. *)
Lemma rename_key_spec secrets account_key base new_key :
  rename_key secrets account_key base = Some new_key ->
  new_key = account_key \/ secrets !! new_key = None.
Proof.
  intros H.
  assert (Hfree : key_in secrets new_key
                  && negb (String.eqb new_key account_key) = false).
  { apply suffix_loop_spec in H as [[-> Hf] | [_ (n & _ & -> & Hf & _)]]; done. }
  apply andb_false_iff in Hfree as [Hf | Hf].
  - right. by apply key_in_false.
  - left. apply negb_false_iff in Hf. by apply String.eqb_eq.
Qed.



(** [rename_record] on a structured record: it returns, the record moves to
    the new key with only its issuer and account replaced. *)
Lemma rename_record_structured secrets account_key o new_service new_account :
  secrets !! account_key = Some (JObject o) ->
  exists new_key,
    rename_key secrets account_key (new_service +:+ "_" +:+ new_account)
    = Some new_key
    /\ (new_key = account_key \/ secrets !! new_key = None)
    /\ rename_record secrets account_key new_service new_account
       = Some (Renamed new_key
                 (<[new_key := JObject (<["account" := JString new_account]>
                                         (<["issuer" := JString new_service]> o))]>
                    (delete account_key secrets))).
Proof.
  intros Hk. unfold rename_record. rewrite Hk.
  destruct (rename_key_total secrets account_key
              (new_service +:+ "_" +:+ new_account)) as [new_key Hnew].
  exists new_key. rewrite Hnew. split; [done |].
  split; [by eapply rename_key_spec |].
  cbn [mbind option_bind]. do 2 f_equal.
  destruct (String.eqb_spec new_key account_key) as [-> | Hne]; [| done].
  by rewrite insert_delete_eq.
Qed.

Lemma rename_fields (o : gmap string json) new_service new_account field :
  field <> "issuer" -> field <> "account" ->
  <["account" := JString new_account]> (<["issuer" := JString new_service]> o)
    !! field = o !! field.
Proof. intros H1 H2. by rewrite !lookup_insert_ne. Qed.


(** A key that is not in the store, and a record stored as a bare string
    (or any value that is not a dict): the store is not touched. *)
Lemma rename_record_absent secrets account_key new_service new_account :
  secrets !! account_key = None ->
  rename_record secrets account_key new_service new_account
  = Some RenameNotFound.
Proof. intros H. unfold rename_record. by rewrite H. Qed.

Lemma rename_record_legacy secrets account_key secret new_service new_account :
  secrets !! account_key = Some (JString secret) ->
  rename_record secrets account_key new_service new_account
  = Some RenameRaised.
Proof. intros H. unfold rename_record. by rewrite H. Qed.


Lemma str_eq_true s v : str_eq s v = true <-> v = TreeStr s.
Proof.
  destruct v as [c | n]; simpl; [| done].
  rewrite String.eqb_eq. split; congruence.
Qed.




(** * Further properties of the code *)

(** ** Removing accounts *)

Lemma remove_account_lookup (secrets : gmap string json) account_key k :
  (remove_account secrets account_key).2 !! k
  = if decide (k = account_key) then None else secrets !! k.
Proof.
  unfold remove_account.
  destruct (key_in secrets account_key) eqn:Hin; cbn [snd];
    destruct (decide (k = account_key)) as [-> | Hne]; try done.
  - apply lookup_delete_eq.
  - by apply lookup_delete_ne.
  - by apply key_in_false.
Qed.

(** X1: [remove_account] returns [True] exactly when the key is in the
    store.  Then the key is gone, every other record is as it was and the
    store has one record less; otherwise the store is unchanged, so a
    second removal of the same key returns [False]. *)
Theorem remove_account_spec (secrets : gmap string json) (account_key : string) :
  let result := remove_account secrets account_key in
  (result.1 = true <-> is_Some (secrets !! account_key))
  /\ result.2 !! account_key = None
  /\ (forall k, k <> account_key -> result.2 !! k = secrets !! k)
  /\ (is_Some (secrets !! account_key) -> S (size result.2) = size secrets)
  /\ (secrets !! account_key = None -> result = (false, secrets))
  /\ remove_account result.2 account_key = (false, result.2).
Proof.
  unfold remove_account.
  destruct (key_in secrets account_key) eqn:Hin; cbn [fst snd].
  - apply key_in_true in Hin as Hsome. destruct Hsome as [x Hx].
    repeat split; try done.
    + apply lookup_delete_eq.
    + intros k Hk. by apply lookup_delete_ne.
    + intros _. rewrite map_size_delete, Hx.
      assert (size secrets <> 0)%nat; [| lia].
      intros H0. apply map_size_empty_iff in H0. by rewrite H0 in Hx.
    + by rewrite Hx.
    + assert (key_in (delete account_key secrets) account_key = false) as ->;
        [| done].
      apply key_in_false, lookup_delete_eq.
  - apply key_in_false in Hin as Hnone.
    repeat split; try done.
    + intros [x Hx]. congruence.
    + intros [x Hx]. congruence.
    + by rewrite Hin.
Qed.

Lemma remove_account_spec_witness :
  let secrets : gmap string json := <["A_b" := sample_record]> ∅ in
  is_Some (secrets !! "A_b")
  /\ S (size (remove_account secrets "A_b").2) = size secrets.
Proof.
  intros secrets.
  assert (Hin : is_Some (secrets !! "A_b")) by (by eexists).
  split; [exact Hin |].
  destruct (remove_account_spec secrets "A_b") as (_ & _ & _ & Hsize & _).
  exact (Hsize Hin).
Defined.

Lemma add_one_accepted totp_now (secrets secrets' : gmap string json) request :
  add_one totp_now secrets request = Some (true, secrets') ->
  exists key record,
    secrets !! key = None /\ secrets' = <[key := record]> secrets
    /\ contains "_" key = true.
Proof.
  assert (Hu : forall base key,
             contains "_" base = true ->
             unique_name secrets base = Some key -> contains "_" key = true).
  { intros base key Hb Hk.
    apply unique_name_spec in Hk as [_ [[-> _] | [_ (n & _ & -> & _)]]];
      [done |].
    unfold suffixed. by rewrite contains_app, Hb. }
  assert (Hbase : forall i a, contains "_" (i +:+ "_" +:+ a) = true).
  { intros i a. rewrite contains_app. simpl. by rewrite orb_true_r. }
  destruct request as [qr_data time_now | name secret issuer time_now]; simpl.
  - destruct (totp_now (qr_secret qr_data) time_now) as [code|] eqn:Hc.
    + destruct (add_account_from_qr_accepted totp_now secrets qr_data time_now)
        as (key & Hkey & Hfree & ->); [by rewrite Hc |].
      intros [= <-]. eexists key, _. split; [done |]. split; [done |].
      by eapply Hu.
    + rewrite add_account_from_qr_refused by done. congruence.
  - destruct (totp_now (clean_secret secret) time_now) as [code|] eqn:Hc.
    + destruct (add_account_manual_accepted totp_now secrets name secret issuer
                  time_now) as (key & Hkey & Hfree & ->); [by rewrite Hc |].
      intros [= <-]. eexists key, _. split; [done |]. split; [done |].
      by eapply Hu.
    + rewrite add_account_manual_refused by done. congruence.
Qed.

(** X2: removing the account an add has just stored undoes the add: for
    either add path, an accepted add took a key the store did not have,
    and [remove_account] on that key gives back the store as it was before
    the add. *)
Theorem add_then_remove (totp_now : string -> Q -> option string)
    (secrets secrets' : gmap string json) (request : add_request) :
  add_one totp_now secrets request = Some (true, secrets') ->
  exists key,
    secrets !! key = None
    /\ is_Some (secrets' !! key)
    /\ remove_account secrets' key = (true, secrets).
Proof.
  intros Hadd.
  destruct (add_one_accepted _ _ _ _ Hadd) as (key & record & Hfree & -> & _).
  exists key. split; [done |].
  split; [rewrite lookup_insert_eq; by eexists |].
  unfold remove_account.
  assert (key_in (<[key := record]> secrets) key = true) as ->.
  { apply key_in_true. rewrite lookup_insert_eq. by eexists. }
  by rewrite delete_insert_id.
Qed.

Lemma add_then_remove_witness :
  exists key,
    remove_account
      (<["Test_bob" := account_record "JBSWY3DPEHPK3PXP" "bob" "Test" 0]> ∅) key
    = (true, ∅).
Proof.
  destruct (add_then_remove sample_totp ∅
              (<["Test_bob" := account_record "JBSWY3DPEHPK3PXP" "bob" "Test" 0]> ∅)
              (AddManual "bob" "JBSWY3DPEHPK3PXP" "Test" 0))
    as (key & _ & _ & Hrem); [reflexivity |].
  exists key. exact Hrem.
Defined.

(** X3: [delete_account] removes nothing unless the user confirms, and
    then it removes exactly the account of the selected row.  A row whose
    key is the empty string is treated like a row without a key: its
    account cannot be deleted. *)
Theorem delete_account_spec (secrets : gmap string json)
    (account_key : option string) (confirmed : bool) :
  (confirmed = false -> delete_account secrets account_key confirmed
                        = (false, secrets))
  /\ delete_account secrets (Some "") confirmed = (false, secrets)
  /\ delete_account secrets None confirmed = (false, secrets)
  /\ (forall key, key <> "" ->
        delete_account secrets (Some key) true = remove_account secrets key)
  /\ (forall k, account_key <> Some k ->
        (delete_account secrets account_key confirmed).2 !! k = secrets !! k).
Proof.
  split; [| split; [| split; [| split]]]; try done.
  - intros ->. destruct account_key as [key|]; [| done]. simpl.
    by destruct (is_empty key).
  - intros key Hkey. simpl. apply is_empty_false in Hkey. by rewrite Hkey.
  - intros k Hk. destruct account_key as [key|]; [| done]. simpl.
    destruct (is_empty key); [done |]. destruct confirmed; [| done].
    rewrite remove_account_lookup. case_decide; [congruence | done].
Qed.

Lemma delete_account_spec_witness :
  delete_account (<["" := sample_record]> ∅) (Some "") true
  = (false, <["" := sample_record]> ∅)
  /\ delete_account (<["A_b" := sample_record]> ∅) (Some "A_b") true
     = (true, ∅).
Proof.
  split.
  - exact (proj1 (proj2 (delete_account_spec (<["" := sample_record]> ∅)
                           None true))).
  - destruct (delete_account_spec (<["A_b" := sample_record]> ∅) None true)
      as (_ & _ & _ & Hdel & _).
    rewrite (Hdel "A_b"); [reflexivity | discriminate].
Defined.

(** ** Listing accounts and generating codes *)

Lemma list_accounts_lookup (secrets : gmap string json) (key : string) :
  list_accounts secrets !! key = account_entry key <$> secrets !! key.
Proof.
  unfold list_accounts. rewrite map_lookup_imap.
  by destruct (secrets !! key).
Qed.

(** X4: [list_accounts] has one entry for each key of the store and no
    other.  For a record stored by an add the entry shows the account, the
    issuer and the time of the add, and not the secret.  Every value that
    is not a dict (a bare string, a number, a list, [null]) gets the
    defaults: the key as account, "Unknown" as issuer, 0 as time.  A dict
    record shows each of the three fields it has, whatever its value, and
    gets the default for each one it lacks. *)
Theorem list_accounts_spec (secrets : gmap string json) :
  dom (list_accounts secrets) = dom secrets
  /\ (forall key secret account issuer added,
        secrets !! key = Some (account_record secret account issuer added) ->
        list_accounts secrets !! key
        = Some {| info_account := JString account;
                  info_issuer := JString issuer;
                  info_added := JNumber added |})
  /\ (forall key data,
        secrets !! key = Some data ->
        (forall o : gmap string json, data <> JObject o) ->
        list_accounts secrets !! key
        = Some {| info_account := JString key;
                  info_issuer := JString "Unknown";
                  info_added := JNumber 0 |})
  /\ (forall key o,
        secrets !! key = Some (JObject o) ->
        o !! "account" = None -> o !! "issuer" = None -> o !! "added" = None ->
        list_accounts secrets !! key
        = Some {| info_account := JString key;
                  info_issuer := JString "Unknown";
                  info_added := JNumber 0 |})
  /\ (forall key o,
        secrets !! key = Some (JObject o) ->
        exists info,
          list_accounts secrets !! key = Some info
          /\ (forall v, o !! "account" = Some v -> info_account info = v)
          /\ (o !! "account" = None -> info_account info = JString key)
          /\ (forall v, o !! "issuer" = Some v -> info_issuer info = v)
          /\ (o !! "issuer" = None -> info_issuer info = JString "Unknown")
          /\ (forall v, o !! "added" = Some v -> info_added info = v)
          /\ (o !! "added" = None -> info_added info = JNumber 0)).
Proof.
  split; [| split; [| split; [| split]]].
  - apply set_eq. intros key. rewrite !elem_of_dom, list_accounts_lookup.
    by rewrite fmap_is_Some.
  - intros key secret account issuer added H.
    by rewrite list_accounts_lookup, H.
  - intros key data H Hshape. rewrite list_accounts_lookup, H.
    destruct data as [| | | | | o]; try done. by destruct (Hshape o).
  - intros key o H Ha Hi Hd. rewrite list_accounts_lookup, H. simpl.
    by rewrite Ha, Hi, Hd.
  - intros key o H. eexists. rewrite list_accounts_lookup, H.
    split; [reflexivity |]. cbn [account_entry info_account info_issuer info_added].
    repeat split; (intros v -> || intros ->); reflexivity.
Qed.

Lemma list_accounts_spec_witness :
  let secrets : gmap string json :=
    <["old" := JString "JBSWY3DPEHPK3PXP"]>
      (<["odd" := JArray [JNumber 1]]> (<["A_b" := sample_record]> ∅)) in
  list_accounts secrets !! "old"
  = Some {| info_account := JString "old"; info_issuer := JString "Unknown";
            info_added := JNumber 0 |}
  /\ list_accounts secrets !! "odd"
     = Some {| info_account := JString "odd"; info_issuer := JString "Unknown";
               info_added := JNumber 0 |}.
Proof.
  intros secrets.
  destruct (list_accounts_spec secrets) as (_ & _ & Hdefault & _).
  split.
  - apply (Hdefault "old" (JString "JBSWY3DPEHPK3PXP")); [reflexivity |].
    intros o Ho. discriminate Ho.
  - apply (Hdefault "odd" (JArray [JNumber 1])); [reflexivity |].
    intros o Ho. discriminate Ho.
Defined.

Section Codes.

Variable totp_now : string -> Q -> option string.
Variable format_date : json -> option string.

Lemma generate_code_record secrets key secret account issuer added time_now :
  secrets !! key = Some (account_record secret account issuer added) ->
  generate_code totp_now secrets key time_now
  = match totp_now secret time_now with
    | Some code => Code code
    | None => CodeRaised
    end.
Proof. intros H. unfold generate_code. by rewrite H. Qed.

Lemma generate_code_insert_ne secrets key key' record time_now :
  key <> key' ->
  generate_code totp_now (<[key := record]> secrets) key' time_now
  = generate_code totp_now secrets key' time_now.
Proof. intros H. unfold generate_code. by rewrite lookup_insert_ne. Qed.

(** X5: after an accepted add, [generate_code] at the same clock reading
    gives a code for the new account, and for every account stored before
    it gives what it gave before the add. *)
Theorem generate_code_after_add (secrets secrets' : gmap string json)
    (request : add_request) (time_now : Q) :
  add_one totp_now secrets request = Some (true, secrets') ->
  match request with
  | AddFromQR _ t | AddManual _ _ _ t => t = time_now
  end ->
  exists key code,
    secrets !! key = None
    /\ generate_code totp_now secrets' key time_now = Code code
    /\ forall k, is_Some (secrets !! k) ->
         generate_code totp_now secrets' k time_now
         = generate_code totp_now secrets k time_now.
Proof.
  intros Hadd Ht.
  destruct request as [qr_data t | name secret issuer t]; simpl in Hadd, Ht;
    subst t.
  - destruct (totp_now (qr_secret qr_data) time_now) as [code|] eqn:Hc.
    + destruct (add_account_from_qr_accepted totp_now secrets qr_data time_now)
        as (key & _ & Hfree & Heq); [by rewrite Hc |].
      rewrite Heq in Hadd. injection Hadd as <-.
      exists key, code. split; [done |]. split.
      * erewrite generate_code_record by apply lookup_insert_eq.
        by rewrite Hc.
      * intros k [x Hx]. apply generate_code_insert_ne. congruence.
    + rewrite add_account_from_qr_refused in Hadd by done. congruence.
  - destruct (totp_now (clean_secret secret) time_now) as [code|] eqn:Hc.
    + destruct (add_account_manual_accepted totp_now secrets name secret issuer
                  time_now) as (key & _ & Hfree & Heq); [by rewrite Hc |].
      rewrite Heq in Hadd. injection Hadd as <-.
      exists key, code. split; [done |]. split.
      * erewrite generate_code_record by apply lookup_insert_eq.
        by rewrite Hc.
      * intros k [x Hx]. apply generate_code_insert_ne. congruence.
    + rewrite add_account_manual_refused in Hadd by done. congruence.
Qed.


Lemma refresh_row_raises secrets time_now key info :
  generate_code totp_now secrets key time_now = CodeRaised ->
  refresh_row totp_now format_date secrets time_now (key, info) = None.
Proof. intros H. unfold refresh_row. cbn [fst snd]. by rewrite H. Qed.

(** One account whose code cannot be generated makes the whole refresh
    raise. *)
Lemma refresh_raises secrets time_now key :
  is_Some (secrets !! key) ->
  generate_code totp_now secrets key time_now = CodeRaised ->
  refresh_accounts_list totp_now format_date secrets time_now = None.
Proof.
  intros [data Hdata] Hraise. unfold refresh_accounts_list.
  apply eq_None_not_Some. rewrite mapM_is_Some, Forall_forall.
  intros Hall.
  specialize (Hall (key, account_entry key data)).
  assert (Hin : (key, account_entry key data)
                ∈ map_to_list (list_accounts secrets)).
  { apply elem_of_map_to_list. by rewrite list_accounts_lookup, Hdata. }
  specialize (Hall Hin). cbn in Hall.
  rewrite refresh_row_raises in Hall by done. by destruct Hall.
Qed.

(** What a row that was produced holds. *)
Lemma refresh_row_Some secrets time_now item out :
  refresh_row totp_now format_date secrets time_now item = Some out ->
  exists row,
    out = (item.1, row)
    /\ generate_code totp_now secrets item.1 time_now = Code (row_code row)
    /\ row_time_left row = get_time_remaining time_now
    /\ row_issuer row = info_issuer item.2
    /\ row_account row = info_account item.2
    /\ (if json_truthy (info_added item.2)
        then format_date (info_added item.2) = Some (row_added row)
        else row_added row = "Unknown").
Proof.
  unfold refresh_row.
  destruct (generate_code totp_now secrets item.1 time_now) as [| | code];
    [done | done |].
  destruct (json_truthy (info_added item.2)).
  - destruct (format_date (info_added item.2)) as [d|]; [| done].
    intros [= <-]. by eexists.
  - intros [= <-]. by eexists.
Qed.

(** The rows come with the keys of the items, in their order. *)
Lemma refresh_rows_keys secrets time_now items rows :
  mapM (refresh_row totp_now format_date secrets time_now) items = Some rows ->
  rows.*1 = items.*1.
Proof.
  intros H. apply mapM_Some in H.
  induction H as [| item out items rows Hf _ IH]; [done |].
  cbn [fmap list_fmap]. f_equal; [| exact IH].
  by destruct (refresh_row_Some _ _ _ _ Hf) as (row & -> & _).
Qed.

Lemma list_accounts_key secrets key :
  key ∈ (map_to_list (list_accounts secrets)).*1 <-> is_Some (secrets !! key).
Proof.
  rewrite list_elem_of_fmap. split.
  - intros ([k info] & -> & Hin). apply elem_of_map_to_list in Hin.
    rewrite list_accounts_lookup in Hin. cbn.
    by destruct (secrets !! k).
  - intros [data Hdata]. exists (key, account_entry key data).
    split; [done |]. apply elem_of_map_to_list.
    by rewrite list_accounts_lookup, Hdata.
Qed.

(** X7: [refresh_accounts_list] raises as soon as one stored account has a
    secret the TOTP library rejects or has no secret at all.  When every
    account gives a code and the date of every account that has one
    formats, it produces exactly one row per account: the keys of the rows
    are the keys of the store, none twice, and the row of an account holds
    the listed issuer and account name, the code of that account, the
    seconds remaining, and the formatted date or "Unknown".  Conversely
    rows are produced only if every account gives a code and has a date
    that formats. *)
Theorem refresh_accounts_list_spec (secrets : gmap string json) (time_now : Q) :
  (forall key, is_Some (secrets !! key) ->
     generate_code totp_now secrets key time_now = CodeRaised ->
     refresh_accounts_list totp_now format_date secrets time_now = None)
  /\ ((forall key, is_Some (secrets !! key) ->
         exists code, generate_code totp_now secrets key time_now = Code code) ->
      (forall key data, secrets !! key = Some data ->
         json_truthy (info_added (account_entry key data)) = true ->
         is_Some (format_date (info_added (account_entry key data)))) ->
      exists rows,
        refresh_accounts_list totp_now format_date secrets time_now = Some rows
        /\ length rows = size secrets
        /\ NoDup rows.*1
        /\ (forall key, key ∈ rows.*1 <-> is_Some (secrets !! key))
        /\ forall key row, (key, row) ∈ rows ->
             is_Some (secrets !! key)
             /\ generate_code totp_now secrets key time_now = Code (row_code row)
             /\ row_time_left row = get_time_remaining time_now
             /\ exists data,
                  secrets !! key = Some data
                  /\ row_issuer row = info_issuer (account_entry key data)
                  /\ row_account row = info_account (account_entry key data)
                  /\ (if json_truthy (info_added (account_entry key data))
                      then format_date (info_added (account_entry key data))
                           = Some (row_added row)
                      else row_added row = "Unknown"))
  /\ (forall rows,
        refresh_accounts_list totp_now format_date secrets time_now = Some rows ->
        forall key data, secrets !! key = Some data ->
          (exists code, generate_code totp_now secrets key time_now = Code code)
          /\ (json_truthy (info_added (account_entry key data)) = true ->
              is_Some (format_date (info_added (account_entry key data))))).
Proof.
  split; [intros key; apply refresh_raises |]. split.
  - intros Hcodes Hdates.
    assert (Hrow : forall item, item ∈ map_to_list (list_accounts secrets) ->
              is_Some (refresh_row totp_now format_date secrets time_now item)).
    { intros [key info] Hin. apply elem_of_map_to_list in Hin.
      rewrite list_accounts_lookup in Hin.
      destruct (secrets !! key) as [data|] eqn:Hdata; [| done].
      injection Hin as <-.
      destruct (Hcodes key) as [code Hcode]; [by rewrite Hdata |].
      unfold refresh_row. cbn [fst snd]. rewrite Hcode.
      destruct (json_truthy (info_added (account_entry key data))) eqn:Ht.
      - destruct (Hdates key data Hdata Ht) as [d ->]. by eexists.
      - by eexists. }
    destruct (mapM (refresh_row totp_now format_date secrets time_now)
                (map_to_list (list_accounts secrets))) as [rows|] eqn:Hm.
    + exists rows. unfold refresh_accounts_list. rewrite Hm. split; [done |].
      pose proof (refresh_rows_keys _ _ _ _ Hm) as Hkeys.
      split; [| split; [| split]].
      * apply length_mapM in Hm. rewrite <- Hm, length_map_to_list.
        rewrite <- !size_dom. f_equal. apply set_eq. intros key.
        rewrite !elem_of_dom, list_accounts_lookup. by rewrite fmap_is_Some.
      * rewrite Hkeys. apply NoDup_fst_map_to_list.
      * intros key. rewrite Hkeys. apply list_accounts_key.
      * intros key row Hin. apply mapM_Some in Hm.
        apply list_elem_of_lookup in Hin as [i Hi].
        destruct (Forall2_lookup_r _ _ _ _ _ Hm Hi) as (item & Hitem & Hf).
        apply list_elem_of_lookup_2 in Hitem.
        destruct (refresh_row_Some _ _ _ _ Hf)
          as (row' & E & Hc & Ht & Hiss & Hacc & Hadded).
        injection E as -> <-.
        destruct item as [k info]. apply elem_of_map_to_list in Hitem.
        rewrite list_accounts_lookup in Hitem. cbn [fst snd] in *.
        destruct (secrets !! k) as [data|] eqn:Hdata; [| done].
        injection Hitem as <-.
        split; [by eexists |]. split; [done |]. split; [done |].
        by exists data.
    + exfalso. apply eq_None_not_Some in Hm. apply Hm.
      apply mapM_is_Some, Forall_forall. intros item Hin.
      unfold compose. by apply Hrow.
  - intros rows Hm key data Hdata. unfold refresh_accounts_list in Hm.
    apply mapM_Some in Hm.
    assert (Hin : (key, account_entry key data)
                  ∈ map_to_list (list_accounts secrets)).
    { apply elem_of_map_to_list. by rewrite list_accounts_lookup, Hdata. }
    apply list_elem_of_lookup in Hin as [i Hi].
    destruct (Forall2_lookup_l _ _ _ _ _ Hm Hi) as (out & _ & Hf).
    destruct (refresh_row_Some _ _ _ _ Hf) as (row & _ & Hc & _ & _ & _ & Hadded).
    cbn [fst snd] in *. split; [by eexists |].
    intros Ht. rewrite Ht in Hadded. by eexists.
Qed.

End Codes.

Lemma generate_code_after_add_witness :
  exists key code,
    generate_code sample_totp
      (<["Test_bob" := account_record "JBSWY3DPEHPK3PXP" "bob" "Test" 0]> ∅)
      key 0 = Code code.
Proof.
  destruct (generate_code_after_add sample_totp ∅
              (<["Test_bob" := account_record "JBSWY3DPEHPK3PXP" "bob" "Test" 0]> ∅)
              (AddManual "bob" "JBSWY3DPEHPK3PXP" "Test" 0) 0)
    as (key & code & _ & Hcode & _); [reflexivity | reflexivity |].
  exists key, code. exact Hcode.
Defined.


Lemma refresh_accounts_list_spec_witness :
  let bad : gmap string json :=
    <["A_b" := account_record "not base32!" "b" "A" 0]> ∅ in
  let secrets : gmap string json :=
    <["A_b" := sample_record]> (<["old" := JString "JBSWY3DPEHPK3PXP"]> ∅) in
  (is_Some (bad !! "A_b")
   /\ generate_code sample_totp bad "A_b" 0 = CodeRaised
   /\ refresh_accounts_list sample_totp sample_format_date bad 0 = None)
  /\ exists rows,
       refresh_accounts_list sample_totp sample_format_date secrets 1700000010
       = Some rows
       /\ length rows = 2%nat
       /\ NoDup rows.*1.
Proof.
  intros bad secrets. split.
  - assert (Hin : is_Some (bad !! "A_b")) by (by eexists).
    assert (Hraise : generate_code sample_totp bad "A_b" 0 = CodeRaised)
      by reflexivity.
    split; [exact Hin | split; [exact Hraise |]].
    exact (proj1 (refresh_accounts_list_spec sample_totp sample_format_date
                    bad 0) "A_b" Hin Hraise).
  - destruct (proj1 (proj2 (refresh_accounts_list_spec sample_totp
                              sample_format_date secrets 1700000010)))
      as (rows & Hrows & Hlen & Hnodup & _).
    + intros key [data Hdata].
      destruct (decide (key = "A_b")) as [-> | H1]; [by eexists |].
      destruct (decide (key = "old")) as [-> | H2]; [by eexists |].
      unfold secrets in Hdata.
      rewrite !lookup_insert_ne in Hdata by done. done.
    + intros key data Hdata _.
      destruct (decide (key = "A_b")) as [-> | H1];
        [injection Hdata as <-; by eexists |].
      destruct (decide (key = "old")) as [-> | H2];
        [injection Hdata as <-; by eexists |].
      unfold secrets in Hdata.
      rewrite !lookup_insert_ne in Hdata by done. done.
    + exists rows. split; [exact Hrows |]. split; [exact Hlen | exact Hnodup].
Defined.

(** ** Saving and loading *)

(** X8: a store written by a successful [save_secrets] is read back
    unchanged by [load_secrets] unless it holds both a key "salt" and a
    key "data": such a store is taken for the legacy encrypted format and
    comes back empty.  A failed write returns [False] and the file is
    whatever the failure left. *)
Theorem save_load_roundtrip (secrets : gmap string json) (prior : json) :
  (save_secrets (JObject secrets) WriteSucceeds).1 = true
  /\ (secrets !! "salt" = None \/ secrets !! "data" = None ->
      load_secrets prior (save_secrets (JObject secrets) WriteSucceeds).2
      = (true, JObject secrets))
  /\ (is_Some (secrets !! "salt") -> is_Some (secrets !! "data") ->
      load_secrets prior (save_secrets (JObject secrets) WriteSucceeds).2
      = (true, JObject ∅))
  /\ (forall file_left,
        save_secrets (JObject secrets) (WriteRaises file_left)
        = (false, file_left)).
Proof.
  split; [done |]. split; [| split; [| done]].
  - intros H. by apply load_secrets_adopts.
  - intros Hs Hd. simpl.
    by rewrite (bool_decide_eq_true_2 _ Hs), (bool_decide_eq_true_2 _ Hd).
Qed.

Lemma save_load_roundtrip_witness :
  let lost : gmap string json :=
    <["salt" := sample_record]> (<["data" := sample_record]> ∅) in
  let kept : gmap string json := <["A_b" := sample_record]> ∅ in
  load_secrets TOTPManager_init (save_secrets (JObject lost) WriteSucceeds).2
  = (true, JObject ∅)
  /\ load_secrets TOTPManager_init (save_secrets (JObject kept) WriteSucceeds).2
     = (true, JObject kept).
Proof.
  intros lost kept. split.
  - apply (proj1 (proj2 (proj2 (save_load_roundtrip lost TOTPManager_init))));
      by eexists.
  - apply (proj1 (proj2 (save_load_roundtrip kept TOTPManager_init))).
    by left.
Defined.

Lemma rename_key_underscore secrets account_key service account new_key :
  rename_key secrets account_key (service +:+ "_" +:+ account) = Some new_key ->
  contains "_" new_key = true.
Proof.
  assert (Hbase : contains "_" (service +:+ "_" +:+ account) = true).
  { rewrite contains_app. simpl. by rewrite orb_true_r. }
  intros H. apply suffix_loop_spec in H as [[-> _] | [_ (n & _ & -> & _)]];
    [done |].
  unfold suffixed. by rewrite contains_app, Hbase.
Qed.

(** [rename_record] returns: the collision loop never runs out of fuel. *)
Lemma rename_record_total secrets account_key new_service new_account :
  is_Some (rename_record secrets account_key new_service new_account).
Proof.
  destruct (secrets !! account_key) as [data|] eqn:Hk.
  - destruct data as [| | | | |o];
      try (unfold rename_record; rewrite Hk; by eexists).
    destruct (rename_record_structured secrets account_key o new_service
                new_account Hk) as (new_key & _ & _ & ->). by eexists.
  - rewrite rename_record_absent by done. by eexists.
Qed.

Section Sessions.

Variable totp_now : string -> Q -> option string.

(** An add that returns [False] has not touched the store. *)
Lemma add_one_refused (secrets secrets' : gmap string json) request :
  add_one totp_now secrets request = Some (false, secrets') ->
  secrets' = secrets.
Proof.
  destruct request as [qr_data t | name secret issuer t]; simpl.
  - destruct (totp_now (qr_secret qr_data) t) as [code|] eqn:Hc.
    + destruct (add_account_from_qr_accepted totp_now secrets qr_data t)
        as (key & _ & _ & ->); [by rewrite Hc | congruence].
    + rewrite add_account_from_qr_refused by done. congruence.
  - destruct (totp_now (clean_secret secret) t) as [code|] eqn:Hc.
    + destruct (add_account_manual_accepted totp_now secrets name secret issuer
                  t) as (key & _ & _ & ->); [by rewrite Hc | congruence].
    + rewrite add_account_manual_refused by done. congruence.
Qed.

(** Every operation returns and keeps the keys of the store of the form
    the add paths and rename give them. *)
Lemma apply_action_keys (secrets : gmap string json) action :
  (forall k, is_Some (secrets !! k) -> contains "_" k = true) ->
  exists secrets',
    apply_action totp_now secrets action = Some secrets'
    /\ forall k, is_Some (secrets' !! k) -> contains "_" k = true.
Proof.
  intros Hinv. destruct action as [request | key service account | key]; simpl.
  - destruct (add_one_fresh totp_now secrets request)
      as (added & secrets' & Hadd & _ & _).
    rewrite Hadd. exists secrets'. split; [done |].
    destruct added.
    + destruct (add_one_accepted _ _ _ _ Hadd) as (key & record & _ & -> & Hu).
      intros k. destruct (decide (k = key)) as [-> | Hne]; [done |].
      rewrite lookup_insert_ne by done. apply Hinv.
    + by rewrite (add_one_refused _ _ _ Hadd).
  - destruct (secrets !! key) as [data|] eqn:Hk.
    + destruct data as [| | | | |o];
        try (unfold rename_record; rewrite Hk; by eexists).
      destruct (rename_record_structured secrets key o service account Hk)
        as (new_key & Hnew & _ & ->).
      eexists. split; [done |]. intros k.
      destruct (decide (k = new_key)) as [-> | Hne].
      * intros _. by eapply rename_key_underscore.
      * rewrite lookup_insert_ne by done.
        destruct (decide (k = key)) as [-> | Hne'].
        -- rewrite lookup_delete_eq. by intros [].
        -- rewrite lookup_delete_ne by done. apply Hinv.
    + rewrite rename_record_absent by done. by eexists.
  - eexists. split; [done |]. intros k.
    rewrite remove_account_lookup. case_decide; [by intros [] | apply Hinv].
Qed.

Lemma run_session_keys actions :
  forall secrets : gmap string json,
  (forall k, is_Some (secrets !! k) -> contains "_" k = true) ->
  exists secrets',
    run_session totp_now secrets actions = Some secrets'
    /\ forall k, is_Some (secrets' !! k) -> contains "_" k = true.
Proof.
  induction actions as [|action actions IH]; intros secrets Hinv.
  - by exists secrets.
  - destruct (apply_action_keys secrets action Hinv) as (s1 & H1 & Hinv1).
    destruct (IH s1 Hinv1) as (s2 & H2 & Hinv2).
    exists s2. cbn [run_session]. by rewrite H1.
Qed.

(** X9: every session of adds, renames and removals that starts from the
    empty store returns, and every key of the store it leaves contains an
    underscore.  So the store is never taken for the legacy format: saved
    and loaded again, it comes back as it was. *)
Theorem session_survives_reload (actions : list store_action) (prior : json) :
  exists secrets,
    run_session totp_now ∅ actions = Some secrets
    /\ (forall k, is_Some (secrets !! k) -> contains "_" k = true)
    /\ load_secrets prior (save_secrets (JObject secrets) WriteSucceeds).2
       = (true, JObject secrets).
Proof.
  destruct (run_session_keys actions ∅) as (secrets & Hrun & Hinv).
  { intros k [x Hx]. by rewrite lookup_empty in Hx. }
  exists secrets. split; [done |]. split; [done |].
  apply load_secrets_adopts. left.
  destruct (secrets !! "salt") as [x|] eqn:Hs; [| done].
  assert (contains "_" "salt" = true) by (apply Hinv; by eexists).
  done.
Qed.

End Sessions.

(** ** Merging an import *)

(** No conflict is found exactly when no imported key is in the store. *)
Lemma import_no_conflict (secrets accounts : gmap string json) :
  filter (fun name => is_Some (secrets !! name)) (map fst (map_to_list accounts))
  = [] ->
  accounts ##ₘ secrets.
Proof.
  intros Hnil. apply map_disjoint_spec. intros k x y Hx Hy.
  apply (filter_nil_not_elem_of _ _ k Hnil); [by eexists |].
  apply list_elem_of_fmap. exists (k, x). split; [done |].
  by apply elem_of_map_to_list.
Qed.

Lemma import_conflict (secrets accounts : gmap string json) name names :
  filter (fun name => is_Some (secrets !! name)) (map fst (map_to_list accounts))
  = name :: names ->
  is_Some (secrets !! name) /\ is_Some (accounts !! name).
Proof.
  intros Hcons.
  assert (Hin : name ∈ filter (fun name => is_Some (secrets !! name))
                        (map fst (map_to_list accounts)))
    by (rewrite Hcons; left).
  apply list_elem_of_filter in Hin as [Hs Hin]. split; [done |].
  apply list_elem_of_fmap in Hin as ([k x] & -> & Hin).
  apply elem_of_map_to_list in Hin. by eexists.
Qed.

(** What the skip answer keeps of the import, joined to the store, is the
    store joined with the import, the store winning. *)
Lemma skipped_union (secrets accounts : gmap string json) :
  filter (fun kv : string * json => ¬ is_Some (secrets !! kv.1)) accounts
    ∪ secrets
  = secrets ∪ accounts.
Proof.
  apply map_eq. intros k. rewrite !lookup_union.
  destruct (secrets !! k) as [y|] eqn:Hs.
  - rewrite (proj2 (map_lookup_filter_None _ accounts k)).
    + by destruct (accounts !! k).
    + right. intros x _ Hnot. apply Hnot. cbn. by rewrite Hs.
  - destruct (accounts !! k) as [x|] eqn:Ha.
    + rewrite (proj2 (map_lookup_filter_Some _ accounts k x)); [done |].
      split; [done |]. cbn. rewrite Hs. by intros [].
    + rewrite (proj2 (map_lookup_filter_None _ accounts k)); [done |].
      by left.
Qed.

Lemma import_skip (secrets accounts rest : gmap string json) :
  import_accounts secrets (JObject (<["accounts" := JObject accounts]> rest))
    SkipConflicts
  = Imported
      (size (filter (fun kv : string * json => ¬ is_Some (secrets !! kv.1))
                    accounts))
      (secrets ∪ accounts).
Proof.
  unfold import_accounts. rewrite lookup_insert_eq.
  destruct (filter _ (map fst (map_to_list accounts))) as [|name names] eqn:Hc.
  - apply import_no_conflict in Hc.
    rewrite (map_union_comm accounts secrets) by done. f_equal. f_equal.
    symmetry. apply map_filter_id. intros k x Hx. cbn.
    rewrite (map_disjoint_Some_l _ _ _ _ Hc Hx). by intros [].
  - by rewrite skipped_union.
Qed.

Lemma import_abort (secrets accounts rest : gmap string json) :
  import_accounts secrets (JObject (<["accounts" := JObject accounts]> rest))
    AbortImport
  = if decide (accounts ##ₘ secrets)
    then Imported (size accounts) (accounts ∪ secrets)
    else ImportAborted.
Proof.
  unfold import_accounts. rewrite lookup_insert_eq.
  destruct (filter _ (map fst (map_to_list accounts))) as [|name names] eqn:Hc.
  - apply import_no_conflict in Hc. by rewrite decide_True.
  - apply import_conflict in Hc as [[y Hy] [x Hx]].
    rewrite decide_False; [done |]. intros Hd.
    by rewrite (map_disjoint_Some_l _ _ _ _ Hd Hx) in Hy.
Qed.

(** X10: importing a document with the accounts [A] into the store [S].
    With the replace answer the store becomes [A] joined with [S], the
    imported record winning on every common key.  With the skip answer it
    becomes [S] joined with [A], the stored record winning, and the count
    is the number of imported keys the store did not have.  With the cancel
    answer nothing is imported when some key is common to both; when none
    is, no question is asked and all of [A] is imported.  In no case does a
    record of [S] under a key that is not in [A] change. *)
Theorem import_merge (secrets accounts rest : gmap string json) :
  let document := JObject (<["accounts" := JObject accounts]> rest) in
  import_accounts secrets document ReplaceConflicts
  = Imported (size accounts) (accounts ∪ secrets)
  /\ import_accounts secrets document SkipConflicts
     = Imported
         (size (filter (fun kv : string * json => ¬ is_Some (secrets !! kv.1))
                       accounts))
         (secrets ∪ accounts)
  /\ import_accounts secrets document AbortImport
     = (if decide (accounts ##ₘ secrets)
        then Imported (size accounts) (accounts ∪ secrets)
        else ImportAborted)
  /\ (forall k x, accounts !! k = Some x -> (accounts ∪ secrets) !! k = Some x)
  /\ (forall k y, secrets !! k = Some y -> (secrets ∪ accounts) !! k = Some y)
  /\ (forall k, accounts !! k = None ->
        (accounts ∪ secrets) !! k = secrets !! k
        /\ (secrets ∪ accounts) !! k = secrets !! k).
Proof.
  intros document. split; [apply import_replace |].
  split; [apply import_skip |]. split; [apply import_abort |].
  split; [| split].
  - intros k x Hx. by apply lookup_union_Some_l.
  - intros k y Hy. by apply lookup_union_Some_l.
  - intros k Hk. rewrite !lookup_union, Hk. split.
    + by rewrite (left_id None _).
    + by rewrite (right_id None _).
Qed.

Lemma import_merge_witness :
  let secrets : gmap string json := <["A_b" := sample_record]> ∅ in
  let accounts : gmap string json :=
    <["A_b" := JString "JBSWY3DPEHPK3PXP"]> ∅ in
  accounts !! "A_b" = Some (JString "JBSWY3DPEHPK3PXP")
  /\ (accounts ∪ secrets) !! "A_b" = Some (JString "JBSWY3DPEHPK3PXP")
  /\ (secrets ∪ accounts) !! "A_b" = Some sample_record.
Proof.
  intros secrets accounts.
  destruct (import_merge secrets accounts ∅) as (_ & _ & _ & Hr & Hs & _).
  split; [reflexivity |]. split.
  - apply Hr. reflexivity.
  - apply Hs. reflexivity.
Defined.

(** X11: importing the same document a second time changes nothing: after
    an import with the replace answer, a second import with the replace
    answer or with the skip answer leaves the store as the first import
    left it, and the skip answer then counts no account. *)
Theorem import_twice (secrets accounts rest : gmap string json) :
  let document := JObject (<["accounts" := JObject accounts]> rest) in
  exists secrets1,
    import_accounts secrets document ReplaceConflicts
    = Imported (size accounts) secrets1
    /\ import_accounts secrets1 document ReplaceConflicts
       = Imported (size accounts) secrets1
    /\ import_accounts secrets1 document SkipConflicts = Imported 0 secrets1.
Proof.
  intros document. exists (accounts ∪ secrets).
  split; [apply import_replace |]. split.
  - unfold document. rewrite import_replace.
    by rewrite (assoc_L (∪)), (idemp_L (∪)).
  - unfold document. rewrite import_skip. f_equal.
    + apply map_size_empty_iff, map_empty_filter_2.
      intros k x Hx Hnot. apply Hnot. cbn.
      rewrite (lookup_union_Some_l _ _ _ _ Hx). by eexists.
    + apply map_eq. intros k. rewrite !lookup_union.
      destruct (accounts !! k), (secrets !! k); done.
Qed.

(** X12: restoring a backup over the store it was taken from changes
    nothing.  For a non-empty store, importing its own export finds every
    key in conflict; the replace and the skip answer both leave the store
    as it is (counting all, respectively no, accounts), and the cancel
    answer aborts. *)
Theorem export_import_same_store (secrets : gmap string json) (time_now : Q) :
  secrets <> ∅ ->
  exists document,
    export_accounts secrets time_now = Some document
    /\ import_accounts secrets document ReplaceConflicts
       = Imported (size secrets) secrets
    /\ import_accounts secrets document SkipConflicts = Imported 0 secrets
    /\ import_accounts secrets document AbortImport = ImportAborted.
Proof.
  intros Hne.
  assert (Hswap :
    <["version" := JString "1.0"]>
      (<["accounts" := JObject secrets]>
         (<["exported_at" := JNumber time_now]> (∅ : gmap string json)))
    = <["accounts" := JObject secrets]>
        (<["version" := JString "1.0"]>
           (<["exported_at" := JNumber time_now]> ∅)))
    by (by apply insert_insert_ne).
  eexists. split.
  { unfold export_accounts.
    destruct (Nat.eqb_spec (size secrets) 0) as [H0 | _]; [| reflexivity].
    by apply map_size_empty_iff in H0. }
  rewrite Hswap. split; [| split].
  - rewrite import_replace. by rewrite (idemp_L (∪)).
  - rewrite import_skip. f_equal; [| by rewrite (idemp_L (∪))].
    apply map_size_empty_iff, map_empty_filter_2.
    intros k x Hx Hnot. apply Hnot. cbn. by eexists.
  - rewrite import_abort. rewrite decide_False; [done |].
    intros Hd. apply Hne. apply map_eq. intros k. rewrite lookup_empty.
    destruct (secrets !! k) as [x|] eqn:Hx; [| done].
    by rewrite (map_disjoint_Some_l _ _ _ _ Hd Hx) in Hx.
Qed.

Lemma export_import_same_store_witness :
  let secrets : gmap string json := <["A_b" := sample_record]> ∅ in
  exists document,
    export_accounts secrets 1700000100 = Some document
    /\ import_accounts secrets document SkipConflicts = Imported 0 secrets.
Proof.
  intros secrets.
  destruct (export_import_same_store secrets 1700000100)
    as (document & Hexp & _ & Hskip & _); [apply insert_non_empty |].
  exists document. split; [exact Hexp | exact Hskip].
Defined.

(** X13: an import does not validate what it adopts.  A document whose
    accounts hold a record with a secret the TOTP library rejects is
    imported like any other; afterwards [generate_code] raises for that
    account and [refresh_accounts_list], which the import handler and
    start-up both call, raises with it. *)
Theorem import_unvalidated (totp_now : string -> Q -> option string)
    (format_date : json -> option string)
    (secrets accounts rest : gmap string json)
    (key bad account issuer : string) (added time_now : Q) :
  accounts !! key = Some (account_record bad account issuer added) ->
  totp_now bad time_now = None ->
  let secrets' := accounts ∪ secrets in
  import_accounts secrets (JObject (<["accounts" := JObject accounts]> rest))
    ReplaceConflicts = Imported (size accounts) secrets'
  /\ secrets' !! key = Some (account_record bad account issuer added)
  /\ generate_code totp_now secrets' key time_now = CodeRaised
  /\ refresh_accounts_list totp_now format_date secrets' time_now = None
  /\ (secrets' !! "salt" = None \/ secrets' !! "data" = None ->
      forall prior,
        load_secrets prior (save_secrets (JObject secrets') WriteSucceeds).2
        = (true, JObject secrets')).
Proof.
  intros Hkey Hbad secrets'.
  assert (Hin : secrets' !! key = Some (account_record bad account issuer added))
    by (by apply lookup_union_Some_l).
  assert (Hraise : generate_code totp_now secrets' key time_now = CodeRaised).
  { erewrite generate_code_record by exact Hin. by rewrite Hbad. }
  split; [apply import_replace |]. split; [done |]. split; [done |].
  split.
  - apply (refresh_raises _ _ _ _ key); [by eexists | done].
  - intros Hshape prior. by apply load_secrets_adopts.
Qed.

Lemma import_unvalidated_witness :
  let accounts : gmap string json :=
    <["A_b" := account_record "not base32!" "b" "A" 0]> ∅ in
  refresh_accounts_list sample_totp (fun _ => Some "01/01/2024")
    (accounts ∪ ∅) 0 = None.
Proof.
  intros accounts.
  destruct (import_unvalidated sample_totp (fun _ => Some "01/01/2024")
              ∅ accounts ∅ "A_b" "not base32!" "b" "A" 0 0)
    as (_ & _ & _ & Hrefresh & _); [reflexivity | reflexivity |].
  exact Hrefresh.
Defined.

(** ** More on rename *)

Lemma rename_record_renamed secrets account_key service account new_key secrets' :
  rename_record secrets account_key service account
  = Some (Renamed new_key secrets') ->
  exists o,
    secrets !! account_key = Some (JObject o)
    /\ (new_key = account_key \/ secrets !! new_key = None)
    /\ secrets' = <[new_key := JObject (<["account" := JString account]>
                                         (<["issuer" := JString service]> o))]>
                    (delete account_key secrets).
Proof.
  intros H. destruct (secrets !! account_key) as [data|] eqn:Hk.
  - destruct data as [| | | | |o];
      try (unfold rename_record in H; rewrite Hk in H; discriminate).
    destruct (rename_record_structured secrets account_key o service account Hk)
      as (nk & _ & Hnk & Hren).
    rewrite Hren in H. injection H as <- <-. by exists o.
  - rewrite rename_record_absent in H by done. discriminate.
Qed.

(** X14: a rename moves one record and touches nothing else: the store
    keeps its number of records, every record under another key is as it
    was, the new key holds the record that was under the old key with its
    issuer and account replaced by the new names and nothing else changed,
    and when the key changes the old key is gone and the new key was not in
    the store before. *)
Theorem rename_frame (secrets secrets' : gmap string json)
    (account_key service account new_key : string) :
  rename_record secrets account_key service account
  = Some (Renamed new_key secrets') ->
  size secrets' = size secrets
  /\ is_Some (secrets' !! new_key)
  /\ (exists o : gmap string json,
        secrets !! account_key = Some (JObject o)
        /\ secrets' !! new_key
           = Some (JObject (<["account" := JString account]>
                             (<["issuer" := JString service]> o)))
        /\ forall field, field <> "issuer" -> field <> "account" ->
             (<["account" := JString account]>
                (<["issuer" := JString service]> o)) !! field = o !! field)
  /\ (forall k, k <> account_key -> k <> new_key ->
        secrets' !! k = secrets !! k)
  /\ (new_key <> account_key ->
      secrets' !! account_key = None /\ secrets !! new_key = None).
Proof.
  intros H.
  destruct (rename_record_renamed _ _ _ _ _ _ H) as (o & Hk & Hnew & ->).
  split; [| split; [| split; [| split]]].
  - destruct Hnew as [-> | Hfree].
    + rewrite insert_delete_eq. apply map_size_insert_Some. by eexists.
    + destruct (decide (new_key = account_key)) as [-> | Hne]; [congruence |].
      rewrite map_size_insert_None by (by rewrite lookup_delete_ne).
      rewrite map_size_delete, Hk.
      assert (size secrets <> 0)%nat; [| lia].
      intros H0. apply map_size_empty_iff in H0. by rewrite H0 in Hk.
  - rewrite lookup_insert_eq. by eexists.
  - exists o. split; [exact Hk |]. split; [apply lookup_insert_eq |].
    intros field H1 H2. by apply rename_fields.
  - intros k Hk1 Hk2. rewrite lookup_insert_ne by done.
    by rewrite lookup_delete_ne.
  - intros Hne. split.
    + rewrite lookup_insert_ne by done. apply lookup_delete_eq.
    + by destruct Hnew.
Qed.

Lemma rename_frame_witness :
  let secrets : gmap string json :=
    <["A_b" := sample_record]> (<["C_d" := sample_record]> ∅) in
  exists secrets',
    rename_record secrets "A_b" "X" "y" = Some (Renamed "X_y" secrets')
    /\ size secrets' = size secrets
    /\ secrets' !! "X_y"
       = Some (account_record "JBSWY3DPEHPK3PXP" "y" "X" 1700000000).
Proof.
  intros secrets. eexists. split; [reflexivity |].
  split; [| reflexivity].
  refine (proj1 (rename_frame secrets _ "A_b" "X" "y" "X_y" _)). reflexivity.
Defined.

(** X15: renaming an account and renaming it back restores the store.  If
    a record stored under its base key "{issuer}_{account}" is renamed to
    another pair and so moves to another key, then renaming it from there
    to its first issuer and account gives it its first key again and the
    store is exactly what it was. *)
Theorem rename_and_back (secrets secrets1 : gmap string json)
    (o : gmap string json) (issuer account service' account' new_key : string) :
  let key := issuer +:+ "_" +:+ account in
  secrets !! key = Some (JObject o) ->
  o !! "issuer" = Some (JString issuer) ->
  o !! "account" = Some (JString account) ->
  rename_record secrets key service' account' = Some (Renamed new_key secrets1) ->
  new_key <> key ->
  rename_record secrets1 new_key issuer account = Some (Renamed key secrets).
Proof.
  intros key Hk Hi Ha Hren Hne.
  destruct (rename_record_renamed _ _ _ _ _ _ Hren) as (o0 & Hk0 & Hnew & ->).
  rewrite Hk in Hk0. injection Hk0 as <-.
  destruct Hnew as [-> | Hfree]; [done |].
  set (o1 := <["account" := JString account']>
               (<["issuer" := JString service']> o)).
  set (s1 := <[new_key := JObject o1]> (delete key secrets)).
  assert (H1 : s1 !! new_key = Some (JObject o1)) by apply lookup_insert_eq.
  assert (Hgone : s1 !! key = None).
  { unfold s1. rewrite lookup_insert_ne by done. apply lookup_delete_eq. }
  unfold rename_record. rewrite H1.
  assert (Hkey : rename_key s1 new_key (issuer +:+ "_" +:+ account) = Some key).
  { unfold rename_key. cbn [suffix_loop]. fold key.
    apply key_in_false in Hgone. by rewrite Hgone. }
  rewrite Hkey. cbn [mbind option_bind].
  assert (String.eqb key new_key = false) as ->
    by (apply String.eqb_neq; congruence).
  do 2 f_equal.
  assert (Ho : <["account" := JString account]>
                 (<["issuer" := JString issuer]> o1) = o).
  { apply map_eq. intros f. unfold o1.
    destruct (decide (f = "account")) as [-> | Hf1];
      [by rewrite lookup_insert_eq |].
    rewrite lookup_insert_ne by done.
    destruct (decide (f = "issuer")) as [-> | Hf2];
      [by rewrite lookup_insert_eq |].
    by rewrite !lookup_insert_ne. }
  rewrite Ho. unfold s1. rewrite delete_insert_eq.
  rewrite (delete_id (delete key secrets))
    by (by rewrite lookup_delete_ne).
  by apply insert_delete_id.
Qed.

Lemma rename_and_back_witness :
  let secrets : gmap string json := <["A_b" := sample_record]> ∅ in
  exists secrets1,
    rename_record secrets "A_b" "X" "y" = Some (Renamed "X_y" secrets1)
    /\ rename_record secrets1 "X_y" "A" "b" = Some (Renamed "A_b" secrets).
Proof.
  intros secrets. eexists. split; [reflexivity |].
  refine (rename_and_back secrets _ _ "A" "b" "X" "y" "X_y" _ _ _ _ _);
    [reflexivity | reflexivity | reflexivity | reflexivity | discriminate].
Defined.

(** ** The dialogs *)

Lemma rstrip_idemp s : rstrip (rstrip s) = rstrip s.
Proof.
  induction s as [|a s IH]; [done |]. cbn [rstrip].
  destruct (rstrip s) as [|b r] eqn:Hr.
  - destruct (is_space a) eqn:Ha; [done |]. cbn [rstrip]. by rewrite Ha.
  - cbn [rstrip]. cbn [rstrip] in IH. by rewrite IH.
Qed.

Lemma lstrip_head s :
  lstrip s = "" \/ exists a r, lstrip s = String a r /\ is_space a = false.
Proof.
  induction s as [|a s IH]; [by left |]. cbn [lstrip].
  destruct (is_space a) eqn:Ha; [done |]. right. by exists a, s.
Qed.

Lemma rstrip_head a s :
  is_space a = false -> exists r, rstrip (String a s) = String a r.
Proof.
  intros Ha. cbn [rstrip]. destruct (rstrip s); [rewrite Ha |]; by eexists.
Qed.

(** [strip] is idempotent: a trimmed string has nothing left to trim. *)
Lemma strip_idemp s : strip (strip s) = strip s.
Proof.
  unfold strip. destruct (lstrip_head s) as [-> | (a & r & -> & Ha)]; [done |].
  destruct (rstrip_head a r Ha) as [r' Hr]. rewrite Hr.
  cbn [lstrip]. rewrite Ha, <- Hr. apply rstrip_idemp.
Qed.

(** X16: [RenameDialog.accept] produces a result exactly when both entries
    are non-empty after trimming and differ from the values the dialog was
    opened with; the result is the trimmed pair, so the names a rename
    stores have no surrounding whitespace. *)
Theorem RenameDialog_accept_result
    (current_service current_account : tree_value)
    (service_var account_var : string)
    (service account : string) :
  RenameDialog_accept current_service current_account service_var account_var
  = RenameResult service account
  <-> service = strip service_var /\ account = strip account_var
      /\ service <> "" /\ account <> ""
      /\ (TreeStr service <> current_service
          \/ TreeStr account <> current_account)
      /\ strip service = service /\ strip account = account.
Proof.
  unfold RenameDialog_accept. split.
  - destruct (is_empty (strip service_var)) eqn:Hs; [done |].
    destruct (is_empty (strip account_var)) eqn:Ha; [done |].
    destruct (str_eq (strip service_var) current_service) eqn:E1;
      destruct (str_eq (strip account_var) current_account) eqn:E2;
      cbn [andb]; try done;
      intros [= <- <-]; apply is_empty_false in Hs, Ha;
      rewrite !strip_idemp; repeat split; auto;
      [right | left | left]; intros E; symmetry in E;
      apply str_eq_true in E; congruence.
  - intros (-> & -> & Hs & Ha & Hchg & _).
    apply is_empty_false in Hs, Ha. rewrite Hs, Ha.
    destruct (str_eq (strip service_var) current_service) eqn:E1;
      destruct (str_eq (strip account_var) current_account) eqn:E2;
      cbn [andb]; try done.
    apply str_eq_true in E1, E2. destruct Hchg; congruence.
Qed.

(** X17: [ManualEntryDialog.accept] produces a result exactly when the
    account name and the secret are non-empty after trimming and the
    secret, without its spaces and hyphens, has at least 16 characters.
    The result carries the trimmed account name and secret, and as issuer
    the trimmed service, or "Manual" when the service entry is blank. *)
Theorem ManualEntryDialog_accept_result
    (service_var account_var secret_var issuer account secret : string) :
  ManualEntryDialog_accept service_var account_var secret_var
  = ManualResult issuer account secret
  <-> account = strip account_var /\ secret = strip secret_var
      /\ issuer = (if is_empty (strip service_var) then "Manual"
                   else strip service_var)
      /\ account <> "" /\ secret <> ""
      /\ (MIN_SECRET_LENGTH
          <= String.length (remove_char "-" (remove_char " " secret)))%nat.
Proof.
  unfold ManualEntryDialog_accept. split.
  - destruct (is_empty (strip account_var)) eqn:Ha; [done |].
    destruct (is_empty (strip secret_var)) eqn:Hs; [done |].
    destruct (Nat.ltb_spec
                (String.length
                   (remove_char "-" (remove_char " " (strip secret_var))))
                MIN_SECRET_LENGTH) as [Hlt | Hge]; [done |].
    intros [= <- <- <-]. apply is_empty_false in Ha, Hs. by repeat split.
  - intros (-> & -> & -> & Ha & Hs & Hlen).
    apply is_empty_false in Ha, Hs. rewrite Ha, Hs.
    destruct (Nat.ltb_spec
                (String.length
                   (remove_char "-" (remove_char " " (strip secret_var))))
                MIN_SECRET_LENGTH) as [Hlt | Hge]; [lia | done].
Qed.

Lemma remove2_upper_length s :
  String.length (clean_secret s)
  = String.length (remove_char "-" (remove_char " " s)).
Proof. unfold clean_secret. apply upper_length. Qed.

(** X18: every account the manual entry adds is stored under a key the
    store did not have, with the trimmed account name, the issuer of the
    dialog ("Manual" for a blank service), and as secret the trimmed entry
    without spaces and hyphens, upper-cased: a secret of at least 16
    characters that the TOTP library accepted. *)
Theorem show_manual_entry_added (totp_now : string -> Q -> option string)
    (secrets secrets' : gmap string json)
    (service_var account_var secret_var : string) (time_now : Q) :
  show_manual_entry totp_now secrets service_var account_var secret_var time_now
  = Some (EntryAdded secrets') ->
  let secret := clean_secret (strip secret_var) in
  let issuer :=
    if is_empty (strip service_var) then "Manual" else strip service_var in
  exists key,
    secrets !! key = None
    /\ unique_name secrets (issuer +:+ "_" +:+ strip account_var) = Some key
    /\ secrets' = <[key := account_record secret (strip account_var) issuer
                             time_now]> secrets
    /\ (MIN_SECRET_LENGTH <= String.length secret)%nat
    /\ contains " " secret = false /\ contains "-" secret = false
    /\ upper secret = secret
    /\ strip account_var <> ""
    /\ is_Some (totp_now secret time_now).
Proof.
  intros H secret issuer. unfold show_manual_entry in H.
  destruct (ManualEntryDialog_accept service_var account_var secret_var)
    as [| | |i a s] eqn:Hd; try discriminate.
  assert (Hd' := Hd). unfold ManualEntryDialog_accept in Hd'.
  destruct (is_empty (strip account_var)) eqn:Ha; [done |].
  destruct (is_empty (strip secret_var)) eqn:Hs; [done |].
  destruct (Nat.ltb_spec
              (String.length
                 (remove_char "-" (remove_char " " (strip secret_var))))
              MIN_SECRET_LENGTH) as [Hlt | Hge]; [done |].
  injection Hd' as <- <- <-.
  destruct (totp_now (clean_secret (strip secret_var)) time_now)
    as [code|] eqn:Hc.
  - destruct (add_account_manual_accepted totp_now secrets (strip account_var)
                (strip secret_var) issuer time_now)
      as (key & Hkey & Hfree & Hadd); [by rewrite Hc |].
    fold issuer in H. rewrite Hadd in H. injection H as <-.
    exists key. split; [done |]. split; [done |]. split; [done |].
    split; [unfold secret; by rewrite remove2_upper_length |].
    destruct (clean_secret_normalized (strip secret_var)) as (H1 & H2 & H3).
    split; [done |]. split; [done |]. split; [done |].
    split; [by apply is_empty_false |]. unfold secret. by rewrite Hc.
  - fold issuer in H.
    rewrite add_account_manual_refused in H by done. discriminate.
Qed.

Lemma RenameDialog_accept_result_witness :
  RenameDialog_accept (TreeStr "A") (TreeStr "b") "  X " "y"
  = RenameResult "X" "y".
Proof.
  apply (proj2 (RenameDialog_accept_result (TreeStr "A") (TreeStr "b")
                  "  X " "y" "X" "y")).
  repeat split; try reflexivity; try discriminate. left. discriminate.
Defined.

Lemma ManualEntryDialog_accept_result_witness :
  ManualEntryDialog_accept "  " " bob " "jbsw y3dp ehpk 3pxp"
  = ManualResult "Manual" "bob" "jbsw y3dp ehpk 3pxp".
Proof.
  apply (proj2 (ManualEntryDialog_accept_result "  " " bob "
                  "jbsw y3dp ehpk 3pxp" "Manual" "bob" "jbsw y3dp ehpk 3pxp")).
  repeat split; try reflexivity; try discriminate; try (vm_compute; lia).
Defined.

Lemma show_manual_entry_added_witness :
  exists key,
    unique_name ∅ ("Manual" +:+ "_" +:+ "bob") = Some key
    /\ (MIN_SECRET_LENGTH
        <= String.length (clean_secret (strip "jbsw y3dp ehpk 3pxp")))%nat.
Proof.
  destruct (show_manual_entry_added sample_totp ∅
              (<["Manual_bob" := account_record "JBSWY3DPEHPK3PXP" "bob"
                                   "Manual" 0]> ∅)
              "  " " bob " "jbsw y3dp ehpk 3pxp" 0)
    as (key & _ & Hkey & _ & Hlen & _); [reflexivity |].
  exists key. split; [exact Hkey | exact Hlen].
Defined.

(** ** Scanning *)

(** X19: [decode_qr] never returns the empty string: its result is [None]
    or a non-empty payload.  A non-empty payload found in the colour image
    is returned without looking at the grayscale image; a failing
    conversion or detection, on the colour image or on the grayscale one,
    gives [None]. *)
Theorem decode_qr_spec (image_pil mat : Type)
    (to_bgr : image_pil -> option mat) (to_gray : mat -> option mat)
    (detectAndDecode : mat -> option string) (image : image_pil) :
  decode_qr image_pil mat to_bgr to_gray detectAndDecode image <> Some ""
  /\ (forall opencv_image data,
        to_bgr image = Some opencv_image ->
        detectAndDecode opencv_image = Some data -> data <> "" ->
        decode_qr image_pil mat to_bgr to_gray detectAndDecode image = Some data)
  /\ (forall opencv_image gray data,
        to_bgr image = Some opencv_image ->
        detectAndDecode opencv_image = Some "" ->
        to_gray opencv_image = Some gray ->
        detectAndDecode gray = Some data ->
        decode_qr image_pil mat to_bgr to_gray detectAndDecode image
        = if is_empty data then None else Some data)
  /\ (to_bgr image = None ->
      decode_qr image_pil mat to_bgr to_gray detectAndDecode image = None)
  /\ (forall opencv_image,
        to_bgr image = Some opencv_image ->
        detectAndDecode opencv_image = None ->
        decode_qr image_pil mat to_bgr to_gray detectAndDecode image = None)
  /\ (forall opencv_image,
        to_bgr image = Some opencv_image ->
        detectAndDecode opencv_image = Some "" ->
        to_gray opencv_image = None ->
        decode_qr image_pil mat to_bgr to_gray detectAndDecode image = None)
  /\ (forall opencv_image gray,
        to_bgr image = Some opencv_image ->
        detectAndDecode opencv_image = Some "" ->
        to_gray opencv_image = Some gray ->
        detectAndDecode gray = None ->
        decode_qr image_pil mat to_bgr to_gray detectAndDecode image = None).
Proof.
  unfold decode_qr. repeat split.
  - destruct (to_bgr image) as [m|]; [| done]. cbn.
    destruct (detectAndDecode m) as [d|]; [| done]. cbn.
    destruct d as [|a d]; cbn; [| done].
    destruct (to_gray m) as [g|]; [| done]. cbn.
    destruct (detectAndDecode g) as [[|b d']|]; done.
  - intros m d Hm Hd Hne. rewrite Hm. cbn. rewrite Hd. cbn.
    apply is_empty_false in Hne. by rewrite Hne.
  - intros m g d Hm Hd Hgray Hg. rewrite Hm. cbn. rewrite Hd. cbn.
    rewrite Hgray. cbn. rewrite Hg. cbn. by destruct (is_empty d).
  - intros Hm. by rewrite Hm.
  - intros m Hm Hd. rewrite Hm. cbn. by rewrite Hd.
  - intros m Hm Hd Hgray. rewrite Hm. cbn. rewrite Hd. cbn. by rewrite Hgray.
  - intros m g Hm Hd Hgray Hg. rewrite Hm. cbn. rewrite Hd. cbn.
    rewrite Hgray. cbn. by rewrite Hg.
Qed.

Lemma decode_qr_spec_witness :
  decode_qr nat nat (fun n => Some n) (fun n => Some (S n))
    (fun n => Some (if Nat.eqb n 0 then "" else "otpauth://totp/A:b?secret=C"))
    0%nat
  = Some "otpauth://totp/A:b?secret=C".
Proof.
  refine (proj1 (proj2 (proj2 (decode_qr_spec nat nat (fun n => Some n)
                                 (fun n => Some (S n))
                                 (fun n => Some (if Nat.eqb n 0 then ""
                                                 else "otpauth://totp/A:b?secret=C"))
                                 0%nat))) 0%nat 1%nat
            "otpauth://totp/A:b?secret=C" _ _ _ _);
    reflexivity.
Defined.

Lemma split_all_absent c s : contains c s = false -> split_all c s = [s].
Proof.
  induction s as [|a s IH]; simpl; [done |].
  destruct (Ascii.eqb a c); [done |]. intros H. by rewrite IH.
Qed.

Lemma replace_char_absent c d s : contains c s = false -> replace_char c d s = s.
Proof.
  induction s as [|a s IH]; simpl; [done |].
  destruct (Ascii.eqb a c); [done |]. intros H. by rewrite IH.
Qed.

(** The query [secret={s}] has the one parameter [secret], with the value
    [s], when [s] is not empty and has no [&], [+] or [%]. *)
Lemma parse_qs_secret_only unquote_escapes (secret : string) :
  secret <> "" ->
  contains "&" secret = false -> contains "+" secret = false ->
  contains "%" secret = false ->
  param_first "secret" (parse_qs unquote_escapes ("secret=" +:+ secret))
  = Some secret
  /\ param_first "issuer" (parse_qs unquote_escapes ("secret=" +:+ secret))
     = None.
Proof.
  intros Hne Hamp Hplus Hpct.
  assert (Hqsl : parse_qsl unquote_escapes ("secret=" +:+ secret)
                 = [("secret", secret)]).
  { unfold parse_qsl.
    change (is_empty ("secret=" +:+ secret)) with false. cbv iota.
    rewrite split_all_absent by (by rewrite contains_app, Hamp).
    cbn [omap list_omap]. unfold parse_qsl_field.
    change (is_empty ("secret=" +:+ secret)) with false. cbv iota.
    change ("secret=" +:+ secret) with ("secret" +:+ String "=" secret).
    rewrite contains_app_char, split_first_app by done.
    apply is_empty_false in Hne. rewrite Hne.
    rewrite (replace_char_absent "+" " " secret) by done.
    unfold unquote. rewrite Hpct. done. }
  unfold param_first, parse_qs. rewrite Hqsl. done.
Qed.

(** X20: scanning a code whose payload is
    [otpauth://totp/{issuer}:{account}?secret={secret}], written with plain
    characters, stores exactly that account: when the TOTP library accepts
    the secret and the key "{issuer}_{account}" is free, the store gains
    under that key the record with the secret, the account and the issuer
    of the payload and the time of the scan, and nothing else changes. *)
Theorem scan_otpauth_uri (totp_now : string -> Q -> option string)
    (unquote_escapes : string -> string) (secrets : gmap string json)
    (issuer account secret : string) (time_now : Q) :
  Forall (fun c => contains c (issuer +:+ String ":" account) = false)
         ["009"; "013"; "010"; "#"; "?"]%char ->
  Forall (fun c => contains c secret = false)
         ["009"; "013"; "010"; "#"; "&"; "+"; "%"]%char ->
  contains ":" issuer = false ->
  startswith "/" issuer = false ->
  secret <> "" ->
  is_Some (totp_now secret time_now) ->
  secrets !! (issuer +:+ "_" +:+ account) = None ->
  process_qr_image totp_now unquote_escapes secrets
    (Some ("otpauth://totp/" +:+ (issuer +:+ String ":" account)
           +:+ "?" +:+ ("secret=" +:+ secret))) time_now
  = Some (QRAdded (<[issuer +:+ "_" +:+ account :=
                       account_record secret account issuer time_now]> secrets)).
Proof.
  intros Hlabel Hsecret Hcolon Hslash Hne Hok Hfree.
  rewrite !Forall_cons in Hsecret.
  destruct Hsecret as (St & Sr & Sn & Sh & Sa & Sp & Sc & _).
  destruct (parse_qs_secret_only unquote_escapes secret Hne Sa Sp Sc)
    as [Hps Hpi].
  assert (Hq : Forall (fun c => contains c ("secret=" +:+ secret) = false)
                 ["009"; "013"; "010"; "#"]%char).
  { repeat apply Forall_cons_2; [| | | | apply Forall_nil_2];
      by rewrite contains_app, ?St, ?Sr, ?Sn, ?Sh. }
  pose proof (extract_uri_with_colon unquote_escapes issuer account
                ("secret=" +:+ secret) secret Hlabel Hq Hcolon Hslash Hps Hne)
    as Hextract.
  rewrite Hpi in Hextract.
  unfold process_qr_image. rewrite Hextract.
  destruct Hok as [code Hcode].
  unfold add_account_from_qr. cbn [qr_secret qr_account qr_issuer].
  rewrite Hcode, (unique_name_free _ _ Hfree). done.
Qed.

Lemma scan_otpauth_uri_witness :
  process_qr_image sample_totp sample_unquote_escapes ∅
    (Some "otpauth://totp/Example:alice@example.com?secret=JBSWY3DPEHPK3PXP") 0
  = Some (QRAdded (<["Example_alice@example.com" :=
                       account_record "JBSWY3DPEHPK3PXP" "alice@example.com"
                         "Example" 0]> ∅)).
Proof.
  refine (scan_otpauth_uri sample_totp sample_unquote_escapes ∅
            "Example" "alice@example.com" "JBSWY3DPEHPK3PXP" 0 _ _ _ _ _ _ _).
  - repeat constructor.
  - repeat constructor.
  - reflexivity.
  - reflexivity.
  - discriminate.
  - vm_compute. eauto.
  - reflexivity.
Defined.

(** X21: a scan that finds no usable payload adds nothing: when the
    decoder found no payload, when the payload does not start with
    [otpauth://totp/], and when the TOTP library rejects the secret of the
    candidate, the handler reports that no valid code was found. *)
Theorem scan_without_result (totp_now : string -> Q -> option string)
    (unquote_escapes : string -> string) (secrets : gmap string json)
    (time_now : Q) :
  process_qr_image totp_now unquote_escapes secrets None time_now
  = Some QRNoValidCode
  /\ (forall payload,
        startswith "otpauth://totp/" payload = false ->
        process_qr_image totp_now unquote_escapes secrets (Some payload) time_now
        = Some QRNoValidCode)
  /\ (forall payload qr_data,
        extract_secret_from_image unquote_escapes (Some payload) = Some qr_data ->
        totp_now (qr_secret qr_data) time_now = None ->
        process_qr_image totp_now unquote_escapes secrets (Some payload) time_now
        = Some QRNoValidCode)
  /\ (forall decoded secrets',
        process_qr_image totp_now unquote_escapes secrets decoded time_now
        = Some (QRAdded secrets') ->
        exists payload qr_data,
          decoded = Some payload
          /\ startswith "otpauth://totp/" payload = true
          /\ extract_secret_from_image unquote_escapes decoded = Some qr_data
          /\ is_Some (totp_now (qr_secret qr_data) time_now)).
Proof.
  split; [done |]. split; [| split].
  - intros payload Hpre. unfold process_qr_image, extract_secret_from_image.
    by rewrite Hpre, orb_true_r.
  - intros payload qr_data Hex Hbad. unfold process_qr_image. rewrite Hex.
    by rewrite add_account_from_qr_refused.
  - intros decoded secrets' H. unfold process_qr_image in H.
    destruct (extract_secret_from_image unquote_escapes decoded)
      as [qr_data|] eqn:Hex; [| discriminate].
    destruct decoded as [payload|]; [| discriminate].
    exists payload, qr_data. split; [done |]. split.
    + unfold extract_secret_from_image in Hex.
      destruct (startswith "otpauth://totp/" payload); [done |].
      by rewrite orb_true_r in Hex.
    + split; [done |].
      destruct (totp_now (qr_secret qr_data) time_now) eqn:Hc; [by eexists |].
      by rewrite add_account_from_qr_refused in H.
Qed.

Lemma scan_without_result_witness :
  startswith "otpauth://totp/" "https://example.com/" = false
  /\ process_qr_image sample_totp sample_unquote_escapes ∅
       (Some "https://example.com/") 0 = Some QRNoValidCode.
Proof.
  split; [reflexivity |].
  apply (proj1 (proj2 (scan_without_result sample_totp sample_unquote_escapes
                         ∅ 0))). reflexivity.
Defined.

(** ** The countdown *)

Lemma int_of_float_plus_int (t : Q) (k : Z) :
  (0 <= t)%Q -> (0 <= k)%Z ->
  int_of_float (t + inject_Z k) = (int_of_float t + k)%Z.
Proof.
  destruct t as [n d]. unfold Qle, int_of_float, Qplus, inject_Z. simpl.
  intros Hn Hk. rewrite Pos.mul_1_r.
  rewrite !Z.quot_div_nonneg by nia.
  rewrite Z.mul_1_r. apply Z.div_add. lia.
Qed.

(** X22: from the epoch on, the remaining time counts down by one each
    second and starts again at 30 after 1, and it has the period 30: one
    second after a reading with [r] seconds left there are [r - 1] left,
    or 30 if [r] was 1, and 30 seconds later there are [r] left again. *)
Theorem get_time_remaining_countdown (t : Q) :
  (0 <= t)%Q ->
  get_time_remaining (t + 1)
  = (if (get_time_remaining t =? 1)%Z then 30 else get_time_remaining t - 1)%Z
  /\ get_time_remaining (t + 30) = get_time_remaining t.
Proof.
  intros Ht. unfold get_time_remaining, TOTP_PERIOD.
  change 1%Q with (inject_Z 1). change 30%Q with (inject_Z 30).
  rewrite !int_of_float_plus_int by (done || lia).
  set (x := int_of_float t).
  pose proof (Z.div_mod x 30). pose proof (Z.mod_pos_bound x 30).
  pose proof (Z.div_mod (x + 1) 30). pose proof (Z.mod_pos_bound (x + 1) 30).
  pose proof (Z.div_mod (x + 30) 30). pose proof (Z.mod_pos_bound (x + 30) 30).
  split.
  - destruct (Z.eqb_spec (30 - x mod 30) 1); lia.
  - lia.
Qed.

Lemma get_time_remaining_countdown_witness :
  (0 <= 59 # 2)%Q /\ get_time_remaining ((59 # 2) + 1) = 30%Z.
Proof.
  assert (H : (0 <= 59 # 2)%Q) by (unfold Qle; simpl; lia).
  split; [exact H |].
  rewrite (proj1 (get_time_remaining_countdown (59 # 2) H)). reflexivity.
Defined.

(** ** The setup script *)

(** X23: [check_python_version] accepts exactly the versions from 3.8 on:
    a major version above 3, or the major version 3 with a minor version of
    at least 8, whatever the micro version. *)
Theorem check_python_version_spec (major minor micro : Z) :
  check_python_version major minor micro = true
  <-> (3 < major)%Z \/ (major = 3 /\ 8 <= minor)%Z.
Proof.
  unfold check_python_version. cbn [tuple_lt].
  destruct (Z.ltb_spec major 3); destruct (Z.ltb_spec 3 major);
    destruct (Z.ltb_spec minor 8); destruct (Z.ltb_spec 8 minor);
    cbn; split; try lia; try done; intros; lia.
Qed.

Lemma check_python_version_spec_witness :
  check_python_version 3 12 1 = true /\ check_python_version 3 7 9 <> true.
Proof.
  split.
  - apply (proj2 (check_python_version_spec 3 12 1)). right. lia.
  - intros H. apply (proj1 (check_python_version_spec 3 7 9)) in H. lia.
Defined.

Ltac by_membership :=
  repeat split; intros;
  repeat match goal with
    | H : _ ∈ _ :: _ |- _ => apply elem_of_cons in H as [H | H]
    | H : _ ∈ [] |- _ => by apply elem_of_nil in H
    end;
  rewrite ?elem_of_cons, ?elem_of_nil; intuition congruence.

Section Setup.

Variable executable : string.
Variable check_call : list string -> bool.
Variable typed : option string.

(** X24: [install_requirements] tries the plain [pip install] first, the
    [--user] install only if that failed, and the
    [--break-system-packages] install only if both failed and the user
    answered [y] or [yes] at the prompt.  It returns [True] exactly when
    one of the installs it ran succeeded. *)
Theorem install_requirements_spec :
  let plain := pip_install executable [] in
  let user := pip_install executable ["--user"] in
  let break := pip_install executable ["--break-system-packages"] in
  let consent :=
    match typed with Some answer => says_yes answer | None => false end in
  let result := install_requirements executable check_call typed in
  result.1 = check_call plain || check_call user
             || (consent && check_call break)
  /\ plain ∈ result.2
  /\ (user ∈ result.2 <-> check_call plain = false)
  /\ (break ∈ result.2 <->
      check_call plain = false /\ check_call user = false /\ consent = true).
Proof.
  intros plain user break consent result.
  assert (Hpu : plain <> user) by discriminate.
  assert (Hpb : plain <> break) by discriminate.
  assert (Hub : user <> break) by (intros [=]).
  unfold result, install_requirements, install_commands.
  cbn [install_loop app]. fold plain user break.
  destruct (check_call plain) eqn:H1; cbn [fst snd orb andb];
    [by_membership |].
  destruct (check_call user) eqn:H2; cbn [fst snd orb andb];
    [by_membership |].
  unfold consent. destruct typed as [answer|]; cbn [fst snd];
    [destruct (says_yes answer); cbn [fst snd andb] | by_membership];
    [| by_membership].
  destruct (check_call break) eqn:H3; cbn [fst snd]; by_membership.
Qed.

End Setup.

Lemma install_requirements_spec_witness :
  let ran :=
    (install_requirements "python3" (fun _ => false) (Some " Yeah ")).2 in
  (pip_install "python3" ["--break-system-packages"] ∉ ran)
  /\ (pip_install "python3" ["--user"] ∈ ran).
Proof.
  intros ran.
  destruct (install_requirements_spec "python3" (fun _ => false)
              (Some " Yeah ")) as (_ & _ & Huser & Hbreak).
  split.
  - intros Hin. apply Hbreak in Hin as (_ & _ & Hyes). discriminate Hyes.
  - apply Huser. reflexivity.
Defined.

Section Tkinter.

Variable run : list string -> option bool.

(** The command loop runs the commands in order and stops at the first
    one that does not return 0. *)
Lemma run_commands_spec (commands : list (list string)) :
  forall ran,
    (Forall (fun cmd => run cmd = Some true) commands
     /\ run_commands run commands ran = (true, ran ++ commands)%list)
    \/ (exists before cmd after,
          commands = (before ++ cmd :: after)%list
          /\ Forall (fun cmd => run cmd = Some true) before
          /\ run cmd <> Some true
          /\ run_commands run commands ran
             = (false, ran ++ before ++ [cmd])%list).
Proof.
  induction commands as [|cmd commands IH]; intros ran.
  - left. split; [constructor | by rewrite app_nil_r].
  - cbn [run_commands].
    destruct (run cmd) as [[|]|] eqn:Hrun.
    + destruct (IH (ran ++ [cmd])%list)
        as [[Hall Hr] | (before & c & after & -> & Hall & Hc & Hr)].
      * left. split; [by constructor |]. by rewrite Hr, <- app_assoc.
      * right. exists (cmd :: before), c, after.
        split; [done |]. split; [by constructor |]. split; [done |].
        by rewrite Hr, <- app_assoc.
    + right. exists [], cmd, commands. repeat split; [constructor | congruence].
    + right. exists [], cmd, commands. repeat split; [constructor | congruence].
Qed.

(** X25: [install_tkinter] runs package commands on Linux only, and only
    when [/etc/os-release] can be read and names a known distribution.  It
    runs the commands of that distribution in order, stops at the first one
    that fails or cannot be run, and returns [True] exactly when all of
    them returned 0.  On Windows it returns [True] and on every other
    system [False], in both cases without running anything. *)
Theorem install_tkinter_spec (system : string) (os_release : option string) :
  let result := install_tkinter run system os_release in
  (system <> "linux" ->
   result = (String.eqb system "windows", []))
  /\ (system = "linux" -> os_release = None -> result = (false, []))
  /\ (forall text,
        system = "linux" -> os_release = Some text ->
        let commands := distro_commands (lower text) in
        (result.1 = true <->
         commands <> [] /\ Forall (fun cmd => run cmd = Some true) commands)
        /\ (result.1 = true -> result.2 = commands)
        /\ exists after, commands = (result.2 ++ after)%list
        /\ forall i cmd, result.2 !! i = Some cmd ->
             (S i < length result.2)%nat -> run cmd = Some true).
Proof.
  intros result. unfold result, install_tkinter. split; [| split].
  - intros Hne. apply String.eqb_neq in Hne. rewrite Hne.
    destruct (String.eqb_spec system "darwin") as [-> | _]; [done |].
    by destruct (String.eqb system "windows").
  - by intros -> ->.
  - intros text -> ->. rewrite String.eqb_refl.
    destruct (distro_commands (lower text)) as [|cmd commands'].
    { cbn [fst snd]. split; [split; [done | by intros [? _]] |].
      split; [done |]. exists []. split; [done |]. intros i c Hi. done. }
    set (commands := cmd :: commands').
    destruct (run_commands_spec commands [])
      as [[Hall Hr] | (before & c & after & Hc & Hall & Hfail & Hr)];
      rewrite Hr; cbn [fst snd app].
    + split; [split; [intros _; split; [done | done] | done] |].
      split; [done |]. exists []. split; [by rewrite app_nil_r |].
      intros i c Hi _. rewrite Forall_forall in Hall.
      apply Hall. by eapply list_elem_of_lookup_2.
    + split.
      { split; [done |]. intros [_ Hall']. exfalso. apply Hfail.
        rewrite Forall_forall in Hall'. apply Hall'. rewrite Hc.
        apply elem_of_app. right. left. }
      split; [done |]. exists after.
      split; [by rewrite Hc, <- app_assoc |].
      intros i c' Hi Hlt. rewrite length_app in Hlt. simpl in Hlt.
      rewrite lookup_app_l in Hi by lia.
      rewrite Forall_forall in Hall. apply Hall.
      by eapply list_elem_of_lookup_2.
Qed.

End Tkinter.

Lemma install_tkinter_spec_witness :
  let run := fun cmd : list string =>
    Some (bool_decide (cmd = ["sudo"; "apt-get"; "update"])) in
  install_tkinter run "linux" (Some "NAME=Ubuntu")
  = (false,
     [["sudo"; "apt-get"; "update"];
      ["sudo"; "apt-get"; "install"; "-y"; "python3-tk"; "python3-dev";
       "xclip"; "wl-clipboard"]])
  /\ install_tkinter run "freebsd" (Some "NAME=Ubuntu") = (false, []).
Proof.
  intros run. split; [reflexivity |].
  destruct (install_tkinter_spec run "freebsd" (Some "NAME=Ubuntu"))
    as (Hother & _).
  rewrite Hother; [reflexivity | discriminate].
Defined.

(** X26: the distribution is found by looking for its name anywhere in the
    text of [/etc/os-release], in a fixed order.  A text that mentions
    ubuntu or debian gets the two [apt-get] commands, the update first,
    whatever else it mentions; a text that mentions none of the names
    before it but contains "arch" gets the [pacman] command; a text with
    none of the names gets no command, and [install_tkinter] then returns
    [False] without running anything. *)
Theorem distro_commands_order (os_info : string) :
  (is_infix "ubuntu" os_info = true \/ is_infix "debian" os_info = true ->
   distro_commands os_info
   = [["sudo"; "apt-get"; "update"];
      ["sudo"; "apt-get"; "install"; "-y"; "python3-tk"; "python3-dev";
       "xclip"; "wl-clipboard"]])
  /\ (is_infix "ubuntu" os_info = false -> is_infix "debian" os_info = false ->
      is_infix "centos" os_info = false -> is_infix "rhel" os_info = false ->
      is_infix "fedora" os_info = false -> is_infix "arch" os_info = true ->
      distro_commands os_info
      = [["sudo"; "pacman"; "-S"; "--noconfirm"; "tk"; "python"; "xclip";
          "wl-clipboard"]])
  /\ (Forall (fun name => is_infix name os_info = false)
        ["ubuntu"; "debian"; "centos"; "rhel"; "fedora"; "arch"; "opensuse";
         "suse"] ->
      distro_commands os_info = []
      /\ forall run text,
           lower text = os_info ->
           install_tkinter run "linux" (Some text) = (false, [])).
Proof.
  unfold distro_commands. split; [| split].
  - intros [-> | ->]; [done | by rewrite orb_true_r].
  - by intros -> -> -> -> -> ->.
  - rewrite !Forall_cons.
    intros (H1 & H2 & H3 & H4 & H5 & H6 & H7 & H8 & _).
    split; [by rewrite H1, H2, H3, H4, H5, H6, H7, H8 |].
    intros run text <-. unfold install_tkinter, distro_commands.
    rewrite String.eqb_refl. by rewrite H1, H2, H3, H4, H5, H6, H7, H8.
Qed.

Lemma distro_commands_order_witness :
  is_infix "debian" (lower "NAME=Fedora Remix ID_LIKE=debian") = true
  /\ length (distro_commands (lower "NAME=Fedora Remix ID_LIKE=debian")) = 2%nat
  /\ distro_commands (lower "NAME=Gentoo URL=https://gentoo.org/search")
     = [["sudo"; "pacman"; "-S"; "--noconfirm"; "tk"; "python"; "xclip";
         "wl-clipboard"]].
Proof.
  assert (Hd : is_infix "debian" (lower "NAME=Fedora Remix ID_LIKE=debian")
               = true) by reflexivity.
  split; [exact Hd |]. split.
  - rewrite (proj1 (distro_commands_order _) (or_intror Hd)). reflexivity.
  - apply (proj1 (proj2 (distro_commands_order _))); reflexivity.
Defined.

(** X27: for a payload that starts with [otpauth://totp/] and has a
    secret, a label without a colon is the account name as a whole, and
    the issuer is the [issuer] query parameter, or "Unknown" when there is
    none. *)
Theorem extract_plain_label (unquote_escapes : string -> string)
    (qr_data secret : string) :
  startswith "otpauth://totp/" qr_data = true ->
  contains ":" (lstrip_char "/" (path (urlparse qr_data))) = false ->
  let params := parse_qs unquote_escapes (query (urlparse qr_data)) in
  param_first "secret" params = Some secret ->
  secret <> "" ->
  extract_secret_from_image unquote_escapes (Some qr_data)
  = Some {| qr_secret := secret;
            qr_account := lstrip_char "/" (path (urlparse qr_data));
            qr_issuer := default "Unknown" (param_first "issuer" params) |}.
Proof. apply extract_label_without_colon. Qed.

Lemma extract_plain_label_witness :
  extract_secret_from_image sample_unquote_escapes
    (Some "otpauth://totp/alice?secret=JBSWY3DPEHPK3PXP&issuer=ACME")
  = Some {| qr_secret := "JBSWY3DPEHPK3PXP"; qr_account := "alice";
            qr_issuer := "ACME" |}.
Proof.
  refine (extract_plain_label sample_unquote_escapes
            "otpauth://totp/alice?secret=JBSWY3DPEHPK3PXP&issuer=ACME"
            "JBSWY3DPEHPK3PXP" _ _ _ _);
    [reflexivity | reflexivity | reflexivity | discriminate].
Defined.

(** X28: of a query that repeats a parameter the code uses the first
    value: [params.get(name, ...)[0]] is the value of the first field of
    that name in the query string, and it is the default exactly when the
    query has no field of that name with a value.  So a payload with two
    secrets gets the first one. *)
Theorem first_parameter_wins (unquote_escapes : string -> string)
    (name qs : string) :
  let fields := parse_qsl unquote_escapes qs in
  param_first name (parse_qs unquote_escapes qs)
  = head (filter (fun nv => nv.1 = name) fields).*2
  /\ (param_first name (parse_qs unquote_escapes qs) = None
      <-> forall v, (name, v) ∉ fields)
  /\ (forall v, param_first name (parse_qs unquote_escapes qs) = Some v ->
        (name, v) ∈ fields).
Proof.
  intros fields. pose proof (param_first_head unquote_escapes name qs) as Hh.
  fold fields in Hh. split; [exact Hh |]. split; [split |].
  - intros Hnone v Hin. rewrite Hh in Hnone.
    assert (Hf : (name, v) ∈ filter (fun nv : string * string => nv.1 = name)
                           fields)
      by (by apply list_elem_of_filter).
    destruct (filter _ fields) as [|x l]; [by apply elem_of_nil in Hf |].
    discriminate Hnone.
  - apply param_first_missing.
  - intros v Hv. rewrite Hh in Hv.
    destruct (filter (fun nv : string * string => nv.1 = name) fields)
      as [|[n w] l] eqn:Hf; [discriminate |].
    injection Hv as <-.
    assert (Hin : (n, w) ∈ filter (fun nv : string * string => nv.1 = name)
                            fields) by (rewrite Hf; left).
    apply list_elem_of_filter in Hin as [Hn Hin]. simpl in Hn. by subst n.
Qed.

Lemma first_parameter_wins_witness :
  param_first "secret"
    (parse_qs sample_unquote_escapes "secret=AAAA&issuer=ACME&secret=BBBB")
  = Some "AAAA".
Proof.
  rewrite (proj1 (first_parameter_wins sample_unquote_escapes "secret"
                    "secret=AAAA&issuer=ACME&secret=BBBB")).
  reflexivity.
Defined.
